(** * INQUIRO PDF: the ingest / query pipeline of [app.py]

    A shallow embedding of the retrieval-augmented question answering
    script.  The script is a Streamlit program: it runs top to bottom on
    every interaction, keeps three values in [st.session_state], stages each
    uploaded PDF in a temporary file, loads it with [PyPDFLoader], stores
    the pages in a Qdrant collection and answers questions through a
    [RetrievalQA] chain.

    Everything the script does is an effect on something outside it, so the
    embedding is a state-and-exception monad over an explicit [State]:
    the session state, the temporary files, the Qdrant collections, the
    process environment, the clock, and what was shown on the page.  The
    behaviour of the libraries the script calls (which PDFs parse, which
    service calls fail, what the retriever and the language model answer)
    is a parameter, the record [Env]. *)

From Stdlib Require Import QArith Qround String.
From stdpp Require Import gmap strings list fin_maps pretty.

Open Scope string_scope.
Open Scope list_scope.

(** ** Data *)

Definition bytes := list Byte.byte.

(** [st.file_uploader] yields objects with a [name] and a [read()]. *)
Record UploadedFile := {
  name : string;
  data : bytes
}.

(** A langchain [Document]: [PyPDFLoader] produces one per page, with the
    path it read and the page index as metadata. *)
Record Document := {
  page_content : string;
  source : string;
  page : nat
}.

Inductive Distance := COSINE | EUCLID | DOT.

Record VectorParams := {
  size : nat;
  distance : Distance
}.

(** A Qdrant collection: its vector configuration and its points, in
    insertion order. *)
Record Collection := {
  vectors_config : VectorParams;
  points : list Document
}.

Record HuggingFaceEmbeddings := { model_name : string }.

Record QdrantClient := {
  url : option string;
  api_key : option string
}.

(** The langchain [Qdrant] vector store object: a reference to a
    collection by name; the entries live in the service. *)
Record Qdrant := {
  collection_name : string;
  embedding : HuggingFaceEmbeddings;
  store_url : option string;
  store_api_key : option string
}.

Record Ollama := { model : string }.

Record Retriever := {
  retriever_store : Qdrant;
  k : nat
}.

Record RetrievalQA := {
  llm : Ollama;
  retriever : Retriever;
  return_source_documents : bool
}.

Record Response := {
  result : string;
  source_documents : list Document
}.

(** What the script shows through [st.success], [st.error], [st.info]. *)
Inductive Msg :=
  | Success (text : string)
  | Error (text : string)
  | Info (text : string).

(** Requests sent to the Qdrant service, in the order they are made. *)
Inductive Call :=
  | DeleteCollection (collection : string)
  | CreateCollection (collection : string) (config : VectorParams)
  | Upsert (collection : string) (count : nat)
  | Search (collection : string) (limit : nat).

(** Python exceptions.  [Exception msg] stands for any instance of
    [Exception], [msg] being its [str(e)]; [RerunException] is what
    [st.rerun()] raises, a [BaseException] that [except Exception] does not
    catch. *)
Inductive exn :=
  | Exception (msg : string)
  | RerunException.

(** ** The outside world *)

(** The libraries and services the script calls.  A field that returns
    [option string] tells whether that call fails ([Some msg]) or goes
    through ([None]). *)
Record Env := {
  (** the name [tempfile.NamedTemporaryFile] picks, given the names in use *)
  tmp_name : gset string → string;
  (** [uploaded_file.read()] *)
  read_fault : UploadedFile → option string;
  (** [tmp_file.write(...)]: when it fails, the message and how many of
      the bytes had reached the file *)
  write_fault : string → bytes → option (string * nat);
  (** the PDF parser behind [PyPDFLoader.load]: the text of each page *)
  pdf_pages : bytes → string + list string;
  (** [HuggingFaceEmbeddings(model_name=...)] *)
  embeddings_fault : string → option string;
  (** [QdrantClient(url=..., api_key=...)] *)
  client_fault : option string → option string → option string;
  (** the service, per request *)
  delete_fault : string → option string;
  create_fault : string → option string;
  upsert_fault : string → list Document → option string;
  (** nearest-neighbour search over the points of a collection *)
  nearest : list Document → string → nat → string + list Document;
  (** the language model, on a question and the retrieved documents *)
  generate : string → string → list Document → string + string
}.

(** The state the script reads and writes. *)
Record State := {
  (** [st.session_state] *)
  vector_store : option Qdrant;
  chat_history : list (string * string);
  documents_loaded : bool;
  (** files on disk, by path *)
  fs : gmap string bytes;
  (** the collections held by the Qdrant service *)
  qdrant : gmap string Collection;
  (** [os.environ] *)
  environ : gmap string string;
  (** the reading of [time.time()], in seconds: a finite float is a
      rational number *)
  clock : Q;
  (** messages shown so far, oldest first *)
  screen : list Msg;
  (** requests sent to Qdrant so far, oldest first *)
  calls : list Call
}.

Definition set_vector_store (v : option Qdrant) (s : State) : State :=
  {| vector_store := v; chat_history := chat_history s;
     documents_loaded := documents_loaded s; fs := fs s; qdrant := qdrant s;
     environ := environ s; clock := clock s; screen := screen s;
     calls := calls s |}.

Definition set_chat_history (h : list (string * string)) (s : State) : State :=
  {| vector_store := vector_store s; chat_history := h;
     documents_loaded := documents_loaded s; fs := fs s; qdrant := qdrant s;
     environ := environ s; clock := clock s; screen := screen s;
     calls := calls s |}.

Definition set_documents_loaded (b : bool) (s : State) : State :=
  {| vector_store := vector_store s; chat_history := chat_history s;
     documents_loaded := b; fs := fs s; qdrant := qdrant s;
     environ := environ s; clock := clock s; screen := screen s;
     calls := calls s |}.

Definition set_fs (m : gmap string bytes) (s : State) : State :=
  {| vector_store := vector_store s; chat_history := chat_history s;
     documents_loaded := documents_loaded s; fs := m; qdrant := qdrant s;
     environ := environ s; clock := clock s; screen := screen s;
     calls := calls s |}.

Definition set_qdrant (m : gmap string Collection) (s : State) : State :=
  {| vector_store := vector_store s; chat_history := chat_history s;
     documents_loaded := documents_loaded s; fs := fs s; qdrant := m;
     environ := environ s; clock := clock s; screen := screen s;
     calls := calls s |}.

Definition set_environ (m : gmap string string) (s : State) : State :=
  {| vector_store := vector_store s; chat_history := chat_history s;
     documents_loaded := documents_loaded s; fs := fs s; qdrant := qdrant s;
     environ := m; clock := clock s; screen := screen s;
     calls := calls s |}.

Definition set_clock (t : Q) (s : State) : State :=
  {| vector_store := vector_store s; chat_history := chat_history s;
     documents_loaded := documents_loaded s; fs := fs s; qdrant := qdrant s;
     environ := environ s; clock := t; screen := screen s;
     calls := calls s |}.

Definition set_screen (l : list Msg) (s : State) : State :=
  {| vector_store := vector_store s; chat_history := chat_history s;
     documents_loaded := documents_loaded s; fs := fs s; qdrant := qdrant s;
     environ := environ s; clock := clock s; screen := l;
     calls := calls s |}.

Definition set_calls (l : list Call) (s : State) : State :=
  {| vector_store := vector_store s; chat_history := chat_history s;
     documents_loaded := documents_loaded s; fs := fs s; qdrant := qdrant s;
     environ := environ s; clock := clock s; screen := screen s;
     calls := l |}.

(** ** The monad: state, plus Python's exceptions *)

Inductive Outcome (A : Type) :=
  | Ret (a : A)
  | Raise (e : exn).
Arguments Ret {A} a.
Arguments Raise {A} e.

Definition M (A : Type) : Type := State → Outcome A * State.

Definition ret {A} (a : A) : M A := λ s, (Ret a, s).

Definition raise {A} (e : exn) : M A := λ s, (Raise e, s).

Definition bind {A B} (c : M A) (f : A → M B) : M B := λ s,
  match c s with
  | (Ret a, s1) => f a s1
  | (Raise e, s1) => (Raise e, s1)
  end.

Global Instance M_ret : MRet M := @ret.
Global Instance M_bind : MBind M := λ A B f c, bind c f.

Definition get : M State := λ s, (Ret s, s).

Definition modify (f : State → State) : M unit := λ s, (Ret tt, f s).

(** [try: c  except Exception as e: h(str(e))] *)
Definition try_except {A} (c : M A) (h : string → M A) : M A := λ s,
  match c s with
  | (Raise (Exception msg), s1) => h msg s1
  | r => r
  end.

(** [try: c  except: h], the bare form, which catches everything. *)
Definition try_except_all {A} (c : M A) (h : M A) : M A := λ s,
  match c s with
  | (Raise _, s1) => h s1
  | r => r
  end.

(** [try: c  finally: f]: [f] always runs; an exception of [f] replaces the
    outcome of [c]. *)
Definition try_finally {A} (c : M A) (f : M unit) : M A := λ s,
  match c s with
  | (o, s1) =>
      match f s1 with
      | (Ret _, s2) => (o, s2)
      | (Raise e, s2) => (Raise e, s2)
      end
  end.

(** ** Streamlit and operating-system primitives *)

Definition st_success (text : string) : M unit :=
  modify (λ s, set_screen (screen s ++ [Success text]) s).

Definition st_error (text : string) : M unit :=
  modify (λ s, set_screen (screen s ++ [Error text]) s).

Definition st_info (text : string) : M unit :=
  modify (λ s, set_screen (screen s ++ [Info text]) s).

Definition st_rerun : M unit := raise RerunException.

Definition os_getenv (key : string) : M (option string) :=
  s ← get; mret (environ s !! key).

(** [os.unlink(path)]: removes the file, [FileNotFoundError] if there is
    none. *)
Definition os_unlink (path : string) : M unit := λ s,
  match fs s !! path with
  | Some _ => (Ret tt, set_fs (delete path (fs s)) s)
  | None =>
      (Raise (Exception ("[Errno 2] No such file or directory: '" +:+ path +:+ "'")), s)
  end.

(** [int(x)] on a float: truncation towards zero. *)
Definition int (x : Q) : Z := Z.quot (Qnum x) (Z.pos (Qden x)).

Definition time_time : M Q := s ← get; mret (clock s).

Definition log_call (c : Call) : M unit :=
  modify (λ s, set_calls (calls s ++ [c]) s).

(** ** The pipeline *)

Section Pipeline.

Variable E : Env.

(** [tempfile.NamedTemporaryFile(delete=False, suffix=".pdf")]: a new, empty
    file, which stays on disk when it is closed. *)
Definition named_temporary_file : M string := λ s,
  let tmp_path := tmp_name E (dom (fs s)) in
  (Ret tmp_path, set_fs (<[tmp_path := []]> (fs s)) s).

Definition uploaded_file_read (f : UploadedFile) : M bytes :=
  match read_fault E f with
  | Some msg => raise (Exception msg)
  | None => mret (data f)
  end.

(** [tmp_file.write(b)]: a write that fails can stop part-way; what was
    written by then stays in the file. *)
Definition tmp_file_write (tmp_path : string) (b : bytes) : M unit :=
  match write_fault E tmp_path b with
  | Some (msg, written) =>
      modify (λ s, set_fs (<[tmp_path := take written b]> (fs s)) s);;
      raise (Exception msg)
  | None => modify (λ s, set_fs (<[tmp_path := b]> (fs s)) s)
  end.

(** [PyPDFLoader(path).load()]: one [Document] per page of the file at
    [path], in page order. *)
Definition pdf_loader_load (path : string) : M (list Document) := λ s,
  match fs s !! path with
  | None => (Raise (Exception ("File path " +:+ path +:+ " is not a valid file or url")), s)
  | Some b =>
      match pdf_pages E b with
      | inl msg => (Raise (Exception msg), s)
      | inr texts =>
          (Ret (imap (λ i t, {| page_content := t; source := path; page := i |}) texts), s)
      end
  end.

(** Lines 140-142: the [with] block that stages the upload.  It is not
    inside any [try]. *)
Definition stage (uploaded_file : UploadedFile) : M string :=
  tmp_path ← named_temporary_file;
  b ← uploaded_file_read uploaded_file;
  tmp_file_write tmp_path b;;
  mret tmp_path.

(** Lines 144-152: [try] / [except Exception] / [finally].  Returns the
    list [text] as the step leaves it. *)
Definition load_step (uploaded_file : UploadedFile) (tmp_path : string)
    (text : list Document) : M (list Document) :=
  try_finally
    (try_except
       (pages ← pdf_loader_load tmp_path;
        st_success ("✅ Processed: " +:+ name uploaded_file);;
        mret (text ++ pages))
       (λ e,
        st_error ("Error processing " +:+ name uploaded_file +:+ ": " +:+ e);;
        mret text))
    (os_unlink tmp_path).

(** Lines 139-152: the [for] loop over the uploaded files. *)
Fixpoint load_all (uploaded_files : list UploadedFile) (text : list Document)
    : M (list Document) :=
  match uploaded_files with
  | [] => mret text
  | uploaded_file :: rest =>
      tmp_path ← stage uploaded_file;
      text' ← load_step uploaded_file tmp_path text;
      load_all rest text'
  end.

(** Lines 117-130. *)
Definition initialize_components
    : M (option HuggingFaceEmbeddings * option QdrantClient) :=
  try_except
    (embedding_model ←
       match embeddings_fault E "sentence-transformers/all-MiniLM-L6-v2" with
       | Some msg => raise (Exception msg)
       | None => mret {| model_name := "sentence-transformers/all-MiniLM-L6-v2" |}
       end;
     u ← os_getenv "QDRANT_URL";
     key ← os_getenv "QDRANT_API_KEY";
     qdrant_client ←
       match client_fault E u key with
       | Some msg => raise (Exception msg)
       | None => mret {| url := u; api_key := key |}
       end;
     mret (Some embedding_model, Some qdrant_client))
    (λ e,
     st_error ("Error initializing components: " +:+ e);;
     mret (None, None)).

(** [qdrant_client.delete_collection(name)] *)
Definition delete_collection (c : QdrantClient) (cname : string) : M unit :=
  log_call (DeleteCollection cname);;
  match delete_fault E cname with
  | Some msg => raise (Exception msg)
  | None => modify (λ s, set_qdrant (delete cname (qdrant s)) s)
  end.

(** [qdrant_client.create_collection(collection_name=..., vectors_config=...)]:
    refused when the collection exists. *)
Definition create_collection (c : QdrantClient) (cname : string)
    (config : VectorParams) : M unit :=
  log_call (CreateCollection cname config);;
  match create_fault E cname with
  | Some msg => raise (Exception msg)
  | None =>
      s ← get;
      match qdrant s !! cname with
      | Some _ => raise (Exception ("Collection `" +:+ cname +:+ "` already exists!"))
      | None =>
          modify (λ s, set_qdrant
            (<[cname := {| vectors_config := config; points := [] |}]> (qdrant s)) s)
      end
  end.

(** [Qdrant.from_documents(documents=..., embedding=..., url=..., api_key=...,
    collection_name=...)]: adds the documents, in order, to the collection
    (which it creates, for 384-dimensional cosine vectors, if there is none)
    and returns the store object. *)
Definition from_documents (documents : list Document)
    (em : HuggingFaceEmbeddings) (u key : option string) (cname : string)
    : M Qdrant :=
  log_call (Upsert cname (length documents));;
  match upsert_fault E cname documents with
  | Some msg => raise (Exception msg)
  | None =>
      modify (λ s,
        let c := default {| vectors_config := {| size := 384; distance := COSINE |};
                            points := [] |} (qdrant s !! cname) in
        set_qdrant (<[cname := {| vectors_config := vectors_config c;
                                  points := points c ++ documents |}]> (qdrant s)) s);;
      mret {| collection_name := cname; embedding := em;
              store_url := u; store_api_key := key |}
  end.

(** Line 163: [f"RAG_PDF_{int(time.time())}"] *)
Definition fresh_collection_name (now : Q) : string :=
  "RAG_PDF_" +:+ pretty (int now).

(** Lines 164-167: [try: delete_collection(...)  except: pass]. *)
Definition try_delete_collection (qdrant_client : QdrantClient) (cname : string)
    : M unit :=
  try_except_all (delete_collection qdrant_client cname) (mret tt).

(** Lines 162-183, the body of the outer [try]. *)
Definition create_vector_store (text : list Document)
    (embedding_model : HuggingFaceEmbeddings) (qdrant_client : QdrantClient)
    : M (option Qdrant) :=
  now ← time_time;
  let cname := fresh_collection_name now in
  try_delete_collection qdrant_client cname;;
  create_collection qdrant_client cname {| size := 384; distance := COSINE |};;
  u ← os_getenv "QDRANT_URL";
  key ← os_getenv "QDRANT_API_KEY";
  vs ← from_documents text embedding_model u key cname;
  st_success ("✅ Successfully created vector store with "
              +:+ pretty (length text) +:+ " document chunks");;
  mret (Some vs).

(** Lines 132-187. *)
Definition process_uploaded_files (uploaded_files : list UploadedFile)
    : M (option Qdrant) :=
  match uploaded_files with
  | [] => mret None
  | _ =>
      text ← load_all uploaded_files [];
      match text with
      | [] => st_error "No text extracted from PDFs";; mret None
      | _ =>
          '(embedding_model, qdrant_client) ← initialize_components;
          match embedding_model, qdrant_client with
          | Some em, Some qc =>
              try_except
                (create_vector_store text em qc)
                (λ e, st_error ("Error creating vector store: " +:+ e);; mret None)
          | _, _ => mret None
          end
      end
  end.

(** [vector_store.as_retriever(search_kwargs={"k": ...})] *)
Definition as_retriever (vs : Qdrant) (search_k : nat) : Retriever :=
  {| retriever_store := vs; k := search_k |}.

(** The retriever's search: the [k] nearest points of the collection the
    store names. *)
Definition get_relevant_documents (r : Retriever) (query : string)
    : M (list Document) :=
  let cname := collection_name (retriever_store r) in
  log_call (Search cname (k r));;
  s ← get;
  match qdrant s !! cname with
  | None => raise (Exception ("Collection `" +:+ cname +:+ "` doesn't exist!"))
  | Some c =>
      match nearest E (points c) query (k r) with
      | inl msg => raise (Exception msg)
      | inr docs => mret docs
      end
  end.

(** [rag_chain(query)] for a [RetrievalQA] chain: retrieve, then have the
    model answer from what was retrieved. *)
Definition rag_chain_call (chain : RetrievalQA) (query : string) : M Response :=
  docs ← get_relevant_documents (retriever chain) query;
  match generate E (model (llm chain)) query docs with
  | inl msg => raise (Exception msg)
  | inr answer => mret {| result := answer; source_documents := docs |}
  end.

(** Lines 189-208. *)
Definition get_rag_response (query : string) (vs : Qdrant)
    : M (option string * list Document) :=
  try_except
    (let llm := {| model := "llama3.2:3b" |} in
     let retriever := as_retriever vs 3 in
     let rag_chain :=
       {| llm := llm; retriever := retriever; return_source_documents := true |} in
     response ← rag_chain_call rag_chain query;
     mret (Some (result response), source_documents response))
    (λ e,
     st_error ("Error generating response: " +:+ e);;
     mret (None, [])).

(** The widgets of one run of the script: what was uploaded, typed and
    clicked. *)
Record Widgets := {
  uploaded_files : list UploadedFile;
  process_documents : bool;
  clear_chat_history : bool;
  query_input : string;
  ask : bool
}.

(** Python truth of a string. *)
Definition truthy (x : string) : bool :=
  match x with
  | EmptyString => false
  | _ => true
  end.

(** Lines 224-228: the [Process Documents] button, drawn only when files
    are uploaded. *)
Definition process_documents_button (w : Widgets) : M unit :=
  match uploaded_files w with
  | _ :: _ =>
      if process_documents w then
        vs ← process_uploaded_files (uploaded_files w);
        match vs with
        | Some v =>
            modify (set_vector_store (Some v));;
            modify (set_documents_loaded true)
        | None => mret tt
        end
      else mret tt
  | [] => mret tt
  end.

(** Lines 215-237, the sidebar. *)
Definition sidebar (w : Widgets) : M unit :=
  process_documents_button w;;
  s ← get;
  (if documents_loaded s
   then st_success "✅ Documents processed and ready for queries!"
   else st_info "📤 Upload and process PDF documents to start asking questions");;
  if clear_chat_history w then
    modify (set_chat_history []);;
    st_rerun
  else mret tt.

(** Lines 265-274: what the [Ask] button does. *)
Definition ask_question (w : Widgets) : M unit :=
  if ask w && truthy (query_input w) then
    s ← get;
    match vector_store s with
    | Some vs =>
        modify (λ s, set_chat_history (chat_history s ++ [("user", query_input w)]) s);;
        '(response, source_docs) ← get_rag_response (query_input w) vs;
        match response with
        | Some r =>
            if truthy r then
              modify (λ s, set_chat_history (chat_history s ++ [("assistant", r)]) s);;
              st_rerun
            else mret tt
        | None => mret tt
        end
    | None => st_error "Please process documents first!"
    end
  else mret tt.

(** Lines 211-310.  The calls that only draw markup (headers, the rendered
    conversation, the landing page) leave the state untouched and are left
    out. *)
Definition main (w : Widgets) : M unit :=
  sidebar w;;
  s ← get;
  if documents_loaded s then ask_question w
  else st_info "Process documents first to enable querying".

End Pipeline.

(** ** Names used in the statements *)

(** The embedding model, the vector configuration and the chain that the
    script writes out in place. *)
Definition minilm : string := "sentence-transformers/all-MiniLM-L6-v2".

Definition minilm_cosine : VectorParams := {| size := 384; distance := COSINE |}.

Definition the_chain (vs : Qdrant) : RetrievalQA :=
  {| llm := {| model := "llama3.2:3b" |};
     retriever := as_retriever vs 3;
     return_source_documents := true |}.

(** ** What the batch extracts, in the spec's words

    The TextUnits of a batch: the pages of every file that parses, in file
    order, then page order; a file that does not parse contributes none. *)

Definition page_texts (E : Env) (f : UploadedFile) : list string :=
  match pdf_pages E (data f) with
  | inr texts => texts
  | inl _ => []
  end.

Definition text_units (E : Env) (files : list UploadedFile) : list (nat * string) :=
  flat_map (λ f, imap (λ i t, (i, t)) (page_texts E f)) files.

(** The part of the state that ingestion's loading loop leaves alone. *)
Definition loading_frame (s s' : State) : Prop :=
  vector_store s' = vector_store s ∧ chat_history s' = chat_history s ∧
  documents_loaded s' = documents_loaded s ∧ qdrant s' = qdrant s ∧
  environ s' = environ s ∧ clock s' = clock s ∧ calls s' = calls s.

(** The part of the state a query leaves alone. *)
Definition query_frame (s s' : State) : Prop :=
  vector_store s' = vector_store s ∧ chat_history s' = chat_history s ∧
  documents_loaded s' = documents_loaded s ∧ qdrant s' = qdrant s ∧
  environ s' = environ s ∧ clock s' = clock s ∧ fs s' = fs s.

(** The session values, which only [main] assigns. *)
Definition session_frame (s s' : State) : Prop :=
  vector_store s' = vector_store s ∧ chat_history s' = chat_history s ∧
  documents_loaded s' = documents_loaded s.

(** ** Runs of the script

    Streamlit runs the script again on every interaction; the state carries
    over from one run to the next, whatever way the run ended.  A run is
    given by the world it happens in and by the widgets' values. *)

Fixpoint reruns (runs : list (Env * Widgets)) (s : State) : State :=
  match runs with
  | [] => s
  | (E, w) :: rest => reruns rest (main E w s).2
  end.

(** The flag and the store go together: lines 110-115 start a session with
    neither, lines 226-228 set both. *)
Definition session_invariant (s : State) : Prop :=
  documents_loaded s = true ↔ is_Some (vector_store s).

(** What the loading loop shows for a file that was staged. *)
Definition report (E : Env) (f : UploadedFile) : Msg :=
  match pdf_pages E (data f) with
  | inl msg => Error ("Error processing " +:+ name f +:+ ": " +:+ msg)
  | inr _ => Success ("✅ Processed: " +:+ name f)
  end.

(** What the sidebar shows below the uploader. *)
Definition status_message (s : State) : Msg :=
  if documents_loaded s
  then Success "✅ Documents processed and ready for queries!"
  else Info "📤 Upload and process PDF documents to start asking questions".

(** ** Concrete worlds

    A small world to run the pipeline in: a toy PDF format (the magic
    [%PDF] followed by pages separated by form feeds), a service that never
    fails, a retriever that returns the first [k] points and a model that
    always gives the same answer.  The variants below break one thing
    each. *)

Module Demo.

Import Stdlib.Strings.String.

Fixpoint split_pages (b : bytes) (cur : bytes) : list string :=
  match b with
  | [] => [string_of_list_byte (rev cur)]
  | Byte.x0c :: rest => string_of_list_byte (rev cur) :: split_pages rest []
  | c :: rest => split_pages rest (c :: cur)
  end.

Definition toy_pdf_pages (b : bytes) : string + list string :=
  match b with
  | Byte.x25 :: Byte.x50 :: Byte.x44 :: Byte.x46 :: rest => inr (split_pages rest [])
  | _ => inl "EOF marker not found"
  end.

Definition env : Env := {|
  tmp_name := λ _, "/tmp/tmpq3x9.pdf";
  read_fault := λ _, None;
  write_fault := λ _ _, None;
  pdf_pages := toy_pdf_pages;
  embeddings_fault := λ _, None;
  client_fault := λ _ _, None;
  delete_fault := λ _, None;
  create_fault := λ _, None;
  upsert_fault := λ _ _, None;
  nearest := λ pts _ n, inr (take n pts);
  generate := λ _ _ _, inr "The sky is blue."
|}.

(** The disk is full: every write to a staging file fails. *)
Definition env_disk_full : Env := {|
  tmp_name := tmp_name env;
  read_fault := read_fault env;
  write_fault := λ _ _, Some ("[Errno 28] No space left on device", 0);
  pdf_pages := pdf_pages env;
  embeddings_fault := embeddings_fault env;
  client_fault := client_fault env;
  delete_fault := delete_fault env;
  create_fault := create_fault env;
  upsert_fault := upsert_fault env;
  nearest := nearest env;
  generate := generate env
|}.


(** The language model cannot be reached. *)
Definition env_llm_down : Env := {|
  tmp_name := tmp_name env;
  read_fault := read_fault env;
  write_fault := write_fault env;
  pdf_pages := pdf_pages env;
  embeddings_fault := embeddings_fault env;
  client_fault := client_fault env;
  delete_fault := delete_fault env;
  create_fault := create_fault env;
  upsert_fault := upsert_fault env;
  nearest := nearest env;
  generate := λ _ _ _, inl "Connection refused"
|}.

(** The service refuses to delete collections. *)
Definition env_delete_fails : Env := {|
  tmp_name := tmp_name env;
  read_fault := read_fault env;
  write_fault := write_fault env;
  pdf_pages := pdf_pages env;
  embeddings_fault := embeddings_fault env;
  client_fault := client_fault env;
  delete_fault := λ _, Some "Forbidden";
  create_fault := create_fault env;
  upsert_fault := upsert_fault env;
  nearest := nearest env;
  generate := generate env
|}.

(** The embedding model cannot be loaded. *)
Definition env_embeddings_down : Env := {|
  tmp_name := tmp_name env;
  read_fault := read_fault env;
  write_fault := write_fault env;
  pdf_pages := pdf_pages env;
  embeddings_fault := λ _, Some "model not found";
  client_fault := client_fault env;
  delete_fault := delete_fault env;
  create_fault := create_fault env;
  upsert_fault := upsert_fault env;
  nearest := nearest env;
  generate := generate env
|}.

(** The service accepts the collection but refuses the points. *)
Definition env_upsert_fails : Env := {|
  tmp_name := tmp_name env;
  read_fault := read_fault env;
  write_fault := write_fault env;
  pdf_pages := pdf_pages env;
  embeddings_fault := embeddings_fault env;
  client_fault := client_fault env;
  delete_fault := delete_fault env;
  create_fault := create_fault env;
  upsert_fault := λ _ _, Some "timed out";
  nearest := nearest env;
  generate := generate env
|}.

Definition initial : State := {|
  vector_store := None;
  chat_history := [];
  documents_loaded := false;
  fs := ∅;
  qdrant := ∅;
  environ := ∅;
  clock := 4001 # 4;
  screen := [];
  calls := []
|}.

(** A three-page PDF and a corrupted upload. *)
Definition sky_pdf : UploadedFile := {|
  name := "sky.pdf";
  data := list_byte_of_string "%PDF" ++ list_byte_of_string "The sky is blue."
          ++ [Byte.x0c] ++ list_byte_of_string "Grass is green."
          ++ [Byte.x0c] ++ list_byte_of_string "Snow is white."
|}.

Definition broken_pdf : UploadedFile := {|
  name := "broken.pdf";
  data := list_byte_of_string "garbage"
|}.

Definition grass_pdf : UploadedFile := {|
  name := "grass.pdf";
  data := list_byte_of_string "%PDF" ++ list_byte_of_string "Grass is green."
|}.

(** One click on [Process Documents] with these files uploaded. *)
Definition click_process (files : list UploadedFile) : Widgets := {|
  uploaded_files := files;
  process_documents := true;
  clear_chat_history := false;
  query_input := "";
  ask := false
|}.

(** One click on [Ask] with this question typed. *)
Definition click_ask (q : string) : Widgets := {|
  uploaded_files := [];
  process_documents := false;
  clear_chat_history := false;
  query_input := q;
  ask := true
|}.

Definition five_pdf : UploadedFile := {|
  name := "five.pdf";
  data := list_byte_of_string "%PDF" ++ list_byte_of_string "one"
          ++ [Byte.x0c] ++ list_byte_of_string "two"
          ++ [Byte.x0c] ++ list_byte_of_string "three"
          ++ [Byte.x0c] ++ list_byte_of_string "four"
          ++ [Byte.x0c] ++ list_byte_of_string "five"
|}.

(** The session after a successful ingestion of [sky.pdf]. *)
Definition ready : State :=
  (main env (click_process [sky_pdf]) initial).2.

Definition sky_store : Qdrant := {|
  collection_name := "RAG_PDF_1000";
  embedding := {| model_name := "sentence-transformers/all-MiniLM-L6-v2" |};
  store_url := None;
  store_api_key := None
|}.

(** The session after ingesting the five pages, with [RETRIEVAL_K=5] in the
    process environment. *)
Definition ready_k5 : State :=
  set_environ {["RETRIEVAL_K" := "5"]}
    (main env (click_process [five_pdf]) initial).2.

(** Two batches in a row: the second starts from what the first left, with
    the clock half a second further. *)
Definition first_batch : Outcome (option Qdrant) * State :=
  process_uploaded_files env [sky_pdf] initial.

Definition second_batch : Outcome (option Qdrant) * State :=
  process_uploaded_files env [grass_pdf] (set_clock (4003 # 4) first_batch.2).

End Demo.

(** ** The monad's equations *)

Lemma bind_eq {A B} (c : M A) (f : A → M B) (s : State) :
  (c ≫= f) s =
  match c s with
  | (Ret a, s1) => f a s1
  | (Raise e, s1) => (Raise e, s1)
  end.
Proof. reflexivity. Qed.

Lemma bind_ret_inv {A B} (c : M A) (f : A → M B) s b s' :
  (c ≫= f) s = (Ret b, s') →
  ∃ a s1, c s = (Ret a, s1) ∧ f a s1 = (Ret b, s').
Proof.
  rewrite bind_eq. destruct (c s) as [[a|e] s1]; [eauto | discriminate].
Qed.

(** Two states with the same fields are the same state. *)
Lemma State_eq (s1 s2 : State) :
  vector_store s1 = vector_store s2 → chat_history s1 = chat_history s2 →
  documents_loaded s1 = documents_loaded s2 → fs s1 = fs s2 →
  qdrant s1 = qdrant s2 → environ s1 = environ s2 → clock s1 = clock s2 →
  screen s1 = screen s2 → calls s1 = calls s2 → s1 = s2.
Proof. destruct s1, s2; simpl; congruence. Qed.

Ltac fields :=
  cbn [vector_store chat_history documents_loaded fs qdrant environ clock
       screen calls set_vector_store set_chat_history set_documents_loaded
       set_fs set_qdrant set_environ set_clock set_screen set_calls fst snd] in *.

Ltac state_eq := apply State_eq; fields; try reflexivity.

Ltac monad_unfold :=
  unfold mbind, M_bind, mret, M_ret, bind, ret, raise, modify, get,
    try_except, try_except_all, try_finally in *.

(** ** Staging and loading one file *)

Section Loading.

Variable E : Env.

Lemma stage_eq f s :
  stage E f s =
  let p := tmp_name E (dom (fs s)) in
  match read_fault E f with
  | Some msg => (Raise (Exception msg), set_fs (<[p := []]> (fs s)) s)
  | None =>
      match write_fault E p (data f) with
      | Some (msg, written) =>
          (Raise (Exception msg), set_fs (<[p := take written (data f)]> (fs s)) s)
      | None => (Ret p, set_fs (<[p := data f]> (fs s)) s)
      end
  end.
Proof.
  unfold stage, named_temporary_file, uploaded_file_read, tmp_file_write.
  monad_unfold. simpl.
  destruct (read_fault E f); [reflexivity|].
  destruct (write_fault E _ (data f)) as [[msg written]|];
    unfold set_fs; simpl; by rewrite insert_insert_eq.
Qed.

Lemma stage_ret f s p s1 :
  stage E f s = (Ret p, s1) →
  p = tmp_name E (dom (fs s)) ∧ s1 = set_fs (<[p := data f]> (fs s)) s.
Proof.
  rewrite stage_eq. simpl.
  destruct (read_fault E f); [discriminate|].
  destruct (write_fault E _ (data f)) as [[msg written]|]; [discriminate|].
  intros [= <- <-]. done.
Qed.

Lemma load_step_eq f p text s b :
  fs s !! p = Some b →
  load_step E f p text s =
  match pdf_pages E b with
  | inl msg =>
      (Ret text,
       set_screen (screen s ++ [Error ("Error processing " +:+ name f +:+ ": " +:+ msg)])
         (set_fs (delete p (fs s)) s))
  | inr texts =>
      (Ret (text ++ imap (λ i t, {| page_content := t; source := p; page := i |}) texts),
       set_screen (screen s ++ [Success ("✅ Processed: " +:+ name f)])
         (set_fs (delete p (fs s)) s))
  end.
Proof.
  intros Hb. unfold load_step, pdf_loader_load, st_success, st_error, os_unlink.
  monad_unfold. rewrite Hb.
  destruct (pdf_pages E b) as [msg|texts]; simpl; rewrite Hb; reflexivity.
Qed.

(** One turn of the loop, when staging goes through. *)
Lemma load_all_cons f rest text s :
  read_fault E f = None →
  write_fault E (tmp_name E (dom (fs s))) (data f) = None →
  load_all E (f :: rest) text s =
  let p := tmp_name E (dom (fs s)) in
  match pdf_pages E (data f) with
  | inl msg =>
      load_all E rest text
        (set_screen (screen s ++ [Error ("Error processing " +:+ name f +:+ ": " +:+ msg)])
           (set_fs (delete p (fs s)) s))
  | inr texts =>
      load_all E rest
        (text ++ imap (λ i t, {| page_content := t; source := p; page := i |}) texts)
        (set_screen (screen s ++ [Success ("✅ Processed: " +:+ name f)])
           (set_fs (delete p (fs s)) s))
  end.
Proof.
  intros Hr Hw. simpl. rewrite bind_eq, stage_eq. simpl. rewrite Hr, Hw.
  rewrite bind_eq.
  rewrite (load_step_eq _ _ _ _ (data f)) by (simpl; apply lookup_insert_eq).
  destruct (pdf_pages E (data f)); simpl; unfold set_fs, set_screen; simpl;
    rewrite delete_insert_eq; reflexivity.
Qed.

Lemma load_all_app l1 l2 text s :
  load_all E (l1 ++ l2) text s =
  match load_all E l1 text s with
  | (Ret text1, s1) => load_all E l2 text1 s1
  | (Raise e, s1) => (Raise e, s1)
  end.
Proof.
  revert text s. induction l1 as [|f l1 IH]; intros text s; [reflexivity|].
  simpl. rewrite !bind_eq.
  destruct (stage E f s) as [[p|e] s1]; [|reflexivity].
  rewrite !bind_eq.
  destruct (load_step E f p text s1) as [[t|e] s2]; [apply IH | reflexivity].
Qed.

Lemma loading_frame_refl s : loading_frame s s.
Proof. by repeat split. Qed.

Lemma loading_frame_trans s1 s2 s3 :
  loading_frame s1 s2 → loading_frame s2 s3 → loading_frame s1 s3.
Proof.
  unfold loading_frame. intros (?&?&?&?&?&?&?) (?&?&?&?&?&?&?).
  repeat split; congruence.
Qed.

(** A staged file is on disk with the uploaded bytes. *)
Lemma stage_ret_lookup f s p s1 :
  stage E f s = (Ret p, s1) → fs s1 !! p = Some (data f) ∧ loading_frame s s1.
Proof.
  intros [-> ->]%stage_ret. split; [apply lookup_insert_eq | by repeat split].
Qed.

(** The load step always returns, and leaves no file at the path. *)
Lemma load_step_ret f p text s b :
  fs s !! p = Some b →
  ∃ text' s', load_step E f p text s = (Ret text', s') ∧
    fs s' !! p = None ∧ loading_frame s s' ∧
    text' = match pdf_pages E b with
            | inl _ => text
            | inr texts =>
                text ++ imap (λ i t, {| page_content := t; source := p; page := i |}) texts
            end.
Proof.
  intros Hb. rewrite (load_step_eq _ _ _ _ _ Hb).
  destruct (pdf_pages E b); eexists _, _; (split; [reflexivity|]); simpl;
    (split; [apply lookup_delete_eq | split; [by repeat split | reflexivity]]).
Qed.

(** What a completed loop has gathered. *)
Lemma load_all_ret files :
  ∀ text s text' s',
    load_all E files text s = (Ret text', s') →
    (λ d, (page d, page_content d)) <$> text'
      = ((λ d, (page d, page_content d)) <$> text) ++ text_units E files
    ∧ loading_frame s s'.
Proof.
  induction files as [|f rest IH]; intros text s text' s' H.
  - injection H as <- <-. simpl. rewrite app_nil_r. split; [done | apply loading_frame_refl].
  - simpl in H.
    apply bind_ret_inv in H as (p & s1 & Hst & H).
    apply bind_ret_inv in H as (t1 & s2 & Hld & H).
    apply stage_ret_lookup in Hst as [Hp Hf1].
    destruct (load_step_ret f p text s1 _ Hp) as (t1' & s2' & Hld' & _ & Hf2 & Ht).
    rewrite Hld in Hld'. injection Hld' as <- <-.
    apply IH in H as [Htext Hf3]. split.
    + rewrite Htext, Ht. unfold text_units at 2, page_texts. simpl.
      destruct (pdf_pages E (data f)) as [msg|texts]; [reflexivity|].
      rewrite fmap_app, <- app_assoc. f_equal. f_equal.
      rewrite fmap_imap. reflexivity.
    + eauto using loading_frame_trans.
Qed.

(** Whatever way the loop ends, also on an exception out of staging, it has
    touched only the disk and the page. *)
Lemma load_all_frame files :
  ∀ text s, loading_frame s (load_all E files text s).2.
Proof.
  induction files as [|f rest IH]; intros text s; [apply loading_frame_refl|].
  simpl. rewrite bind_eq.
  destruct (stage E f s) as [[p|e] s1] eqn:Hst.
  - apply stage_ret_lookup in Hst as [Hp Hf1].
    rewrite bind_eq.
    destruct (load_step_ret f p text s1 _ Hp) as (t1 & s2 & -> & _ & Hf2 & _).
    eapply loading_frame_trans; [exact Hf1|].
    eapply loading_frame_trans; [exact Hf2|]. apply IH.
  - rewrite stage_eq in Hst. simpl in Hst.
    destruct (read_fault E f); [|destruct (write_fault E _ (data f)) as [[]|]];
      simplify_eq; by repeat split.
Qed.

(** What a completed loop has shown. *)
Lemma load_all_screen files :
  ∀ text s text' s',
    load_all E files text s = (Ret text', s') →
    screen s' = screen s ++ (report E <$> files).
Proof.
  induction files as [|f rest IH]; intros text s text' s' H.
  - injection H as _ <-. simpl. by rewrite app_nil_r.
  - simpl in H.
    apply bind_ret_inv in H as (p & s1 & Hst & H).
    apply bind_ret_inv in H as (t1 & s2 & Hld & H).
    apply stage_ret in Hst as [-> ->].
    rewrite (load_step_eq f _ text _ (data f)) in Hld
      by (fields; apply lookup_insert_eq).
    apply IH in H. rewrite H. simpl. unfold report at 2.
    destruct (pdf_pages E (data f)); injection Hld as _ <-; fields;
      by rewrite <- app_assoc.
Qed.

(** When the uploads can be read and staged, the loop runs to its end. *)
Lemma load_all_runs files :
  (∀ g, g ∈ files → read_fault E g = None) →
  (∀ g p, g ∈ files → write_fault E p (data g) = None) →
  ∀ text s, ∃ text' s', load_all E files text s = (Ret text', s').
Proof.
  induction files as [|g rest IH]; intros Hr Hw text s; [by eexists _, _|].
  rewrite load_all_cons by (first [apply Hr | apply Hw]; set_solver). cbv zeta.
  destruct (pdf_pages E (data g)); apply IH; intros; first [apply Hr | apply Hw];
    set_solver.
Qed.

End Loading.

(** ** Building the index *)

Section Indexing.

Variable E : Env.

Lemma initialize_components_eq s :
  initialize_components E s =
  match embeddings_fault E minilm with
  | Some msg =>
      (Ret (None, None),
       set_screen (screen s ++ [Error ("Error initializing components: " +:+ msg)]) s)
  | None =>
      match client_fault E (environ s !! "QDRANT_URL") (environ s !! "QDRANT_API_KEY") with
      | Some msg =>
          (Ret (None, None),
           set_screen (screen s ++ [Error ("Error initializing components: " +:+ msg)]) s)
      | None =>
          (Ret (Some {| model_name := minilm |},
                Some {| url := environ s !! "QDRANT_URL";
                        api_key := environ s !! "QDRANT_API_KEY" |}), s)
      end
  end.
Proof.
  unfold initialize_components, os_getenv, st_error, minilm. monad_unfold.
  destruct (embeddings_fault E _); [reflexivity|]. simpl.
  destruct (client_fault E _ _); reflexivity.
Qed.

(** The deletion attempt always returns: the request is sent, the
    collection goes if the service obliges, and nothing is shown. *)
Lemma try_delete_collection_eq qc cname s :
  try_delete_collection E qc cname s =
  (Ret tt,
   set_calls (calls s ++ [DeleteCollection cname])
     (match delete_fault E cname with
      | Some _ => s
      | None => set_qdrant (delete cname (qdrant s)) s
      end)).
Proof.
  unfold try_delete_collection, delete_collection, log_call. monad_unfold.
  destruct (delete_fault E cname); reflexivity.
Qed.

(** The whole of the outer [try] body, case by case. *)
Lemma create_vector_store_eq text em qc s :
  create_vector_store E text em qc s =
  let cname := fresh_collection_name (clock s) in
  let q1 := match delete_fault E cname with
            | Some _ => qdrant s
            | None => delete cname (qdrant s)
            end in
  let sent := calls s ++ [DeleteCollection cname; CreateCollection cname minilm_cosine] in
  match create_fault E cname with
  | Some msg => (Raise (Exception msg), set_calls sent (set_qdrant q1 s))
  | None =>
      match q1 !! cname with
      | Some _ =>
          (Raise (Exception ("Collection `" +:+ cname +:+ "` already exists!")),
           set_calls sent (set_qdrant q1 s))
      | None =>
          let created := <[cname := {| vectors_config := minilm_cosine; points := [] |}]> q1 in
          match upsert_fault E cname text with
          | Some msg =>
              (Raise (Exception msg),
               set_calls (sent ++ [Upsert cname (length text)]) (set_qdrant created s))
          | None =>
              (Ret (Some {| collection_name := cname; embedding := em;
                            store_url := environ s !! "QDRANT_URL";
                            store_api_key := environ s !! "QDRANT_API_KEY" |}),
               set_screen (screen s ++
                   [Success ("✅ Successfully created vector store with "
                             +:+ pretty (length text) +:+ " document chunks")])
                 (set_calls (sent ++ [Upsert cname (length text)])
                    (set_qdrant
                       (<[cname := {| vectors_config := minilm_cosine; points := text |}]> q1)
                       s)))
          end
      end
  end.
Proof.
  unfold create_vector_store, time_time. rewrite bind_eq. cbv zeta.
  change ((get ≫= λ s0, mret (clock s0)) s) with (@Ret Q (clock s), s). cbv iota beta.
  generalize (fresh_collection_name (clock s)) as cname.
  generalize (pretty (length text)) as n. intros n cname.
  rewrite bind_eq, try_delete_collection_eq.
  unfold create_collection, from_documents, log_call, os_getenv, st_success, minilm_cosine.
  monad_unfold.
  destruct (delete_fault E cname) as [msg|]; fields;
    (destruct (create_fault E cname); fields;
     [f_equal; state_eq; by rewrite <- app_assoc|]).
  - destruct (qdrant s !! cname); fields;
      [f_equal; state_eq; by rewrite <- app_assoc|].
    destruct (upsert_fault E cname text); fields; f_equal; state_eq;
      rewrite ?lookup_insert_eq, ?insert_insert_eq, <- ?app_assoc; reflexivity.
  - rewrite lookup_delete_eq.
    destruct (upsert_fault E cname text); fields; f_equal; state_eq;
      rewrite ?lookup_insert_eq, ?insert_insert_eq, <- ?app_assoc; reflexivity.
Qed.

(** [process_uploaded_files] on a batch that is not empty, case by case. *)
Lemma process_uploaded_files_eq f rest s :
  process_uploaded_files E (f :: rest) s =
  match load_all E (f :: rest) [] s with
  | (Raise e, s1) => (Raise e, s1)
  | (Ret [], s1) =>
      (Ret None, set_screen (screen s1 ++ [Error "No text extracted from PDFs"]) s1)
  | (Ret (d :: text), s1) =>
      match initialize_components E s1 with
      | (Ret (Some em, Some qc), s2) =>
          match create_vector_store E (d :: text) em qc s2 with
          | (Raise (Exception msg), s3) =>
              (Ret None,
               set_screen (screen s3 ++ [Error ("Error creating vector store: " +:+ msg)]) s3)
          | r => r
          end
      | (Ret _, s2) => (Ret None, s2)
      | (Raise e, s2) => (Raise e, s2)
      end
  end.
Proof.
  unfold process_uploaded_files. rewrite bind_eq.
  destruct (load_all E (f :: rest) [] s) as [[[|d text]|e] s1]; try reflexivity.
  rewrite bind_eq.
  destruct (initialize_components E s1) as [[[[em|] [qc|]]|e] s2]; reflexivity.
Qed.

(** Initialisation only ever shows a message. *)
Lemma initialize_components_frame s :
  ∃ r s', initialize_components E s = (Ret r, s') ∧
    loading_frame s s' ∧ fs s' = fs s ∧
    (r = (None, None) ∨ ∃ em qc, r = (Some em, Some qc) ∧ s' = s).
Proof.
  rewrite initialize_components_eq.
  destruct (embeddings_fault E minilm).
  { eexists _, _. split; [reflexivity|]. repeat split; auto. }
  destruct (client_fault E _ _).
  { eexists _, _. split; [reflexivity|]. repeat split; auto. }
  eexists _, _. split; [reflexivity|]. repeat split; eauto.
Qed.

End Indexing.

(** ** Loading: failures stay with their file, staging files go away *)

(** C2. A parse failure is confined to its file.  Let the loop have worked
    through the files [pre], holding [text1] in state [s1].  If the next
    file [f] is staged and [PyPDFLoader] then raises on it with message
    [msg], the loop goes on with the remaining files [post] from the same
    [text1]: the only traces of [f] are one error message naming it and
    the removal of its staging file.  And going on means processing: when
    the remaining files can be read and staged, the loop runs to its end,
    the text it returns is [text1] followed by every page of every
    remaining file that parses, in file and page order, and what it has
    shown is the one error for [f] followed by one report for each
    remaining file. *)
Theorem parse_failure_confined
    (E : Env) (pre post : list UploadedFile) (f : UploadedFile)
    (text text1 : list Document) (s s1 : State) (msg : string) :
  load_all E pre text s = (Ret text1, s1) →
  read_fault E f = None →
  write_fault E (tmp_name E (dom (fs s1))) (data f) = None →
  pdf_pages E (data f) = inl msg →
  load_all E (pre ++ f :: post) text s =
  load_all E post text1
    (set_screen (screen s1 ++ [Error ("Error processing " +:+ name f +:+ ": " +:+ msg)])
       (set_fs (delete (tmp_name E (dom (fs s1))) (fs s1)) s1))
  ∧ ((∀ g, g ∈ post → read_fault E g = None) →
     (∀ g p, g ∈ post → write_fault E p (data g) = None) →
     ∃ text' s',
       load_all E (pre ++ f :: post) text s = (Ret text', s') ∧
       (λ d, (page d, page_content d)) <$> text'
         = ((λ d, (page d, page_content d)) <$> text1) ++ text_units E post ∧
       screen s'
         = screen s1
           ++ [Error ("Error processing " +:+ name f +:+ ": " +:+ msg)]
           ++ (report E <$> post)).
Proof.
  intros Hpre Hr Hw Hparse.
  assert (Heq : load_all E (pre ++ f :: post) text s =
    load_all E post text1
      (set_screen (screen s1 ++ [Error ("Error processing " +:+ name f +:+ ": " +:+ msg)])
         (set_fs (delete (tmp_name E (dom (fs s1))) (fs s1)) s1))).
  { rewrite load_all_app, Hpre, load_all_cons by assumption.
    cbv zeta. rewrite Hparse. reflexivity. }
  split; [exact Heq|]. intros Hrp Hwp. rewrite Heq.
  destruct (load_all_runs E post Hrp Hwp text1
              (set_screen
                 (screen s1 ++ [Error ("Error processing " +:+ name f +:+ ": " +:+ msg)])
                 (set_fs (delete (tmp_name E (dom (fs s1))) (fs s1)) s1)))
    as (text' & s' & Hl).
  exists text', s'. split; [exact Hl|].
  pose proof (load_all_ret E _ _ _ _ _ Hl) as [Ht _].
  pose proof (load_all_screen E _ _ _ _ _ Hl) as Hs.
  split; [exact Ht|]. rewrite Hs. fields. by rewrite <- app_assoc.
Qed.

Lemma parse_failure_confined_witness :
  load_all Demo.env ([] ++ Demo.broken_pdf :: [Demo.sky_pdf]) [] Demo.initial =
  load_all Demo.env [Demo.sky_pdf] []
    (set_screen
       (screen Demo.initial ++
        [Error ("Error processing " +:+ name Demo.broken_pdf +:+ ": " +:+ "EOF marker not found")])
       (set_fs (delete (tmp_name Demo.env (dom (fs Demo.initial))) (fs Demo.initial))
          Demo.initial))
  ∧ ∃ text' s',
      load_all Demo.env ([] ++ Demo.broken_pdf :: [Demo.sky_pdf]) [] Demo.initial
        = (Ret text', s') ∧
      (λ d, (page d, page_content d)) <$> text'
        = [] ++ text_units Demo.env [Demo.sky_pdf] ∧
      screen s'
        = screen Demo.initial
          ++ [Error ("Error processing " +:+ name Demo.broken_pdf +:+ ": "
                     +:+ "EOF marker not found")]
          ++ (report Demo.env <$> [Demo.sky_pdf]).
Proof.
  destruct (parse_failure_confined Demo.env [] [Demo.sky_pdf] Demo.broken_pdf
              [] [] Demo.initial Demo.initial "EOF marker not found")
    as [Hgo Hall]; try reflexivity.
  split; [exact Hgo|]. apply Hall; reflexivity.
Defined.

(** C7. The staging file is removed on every exit of the load step.  Once
    a file has been staged at [p], the load step returns (whether the loader
    gave pages or raised), and afterwards there is no file at [p]. *)
Theorem staging_file_removed
    (E : Env) (f : UploadedFile) (text : list Document) (s s1 : State) (p : string) :
  stage E f s = (Ret p, s1) →
  ∃ text' s2,
    load_step E f p text s1 = (Ret text', s2) ∧
    fs s2 !! p = None ∧
    match pdf_pages E (data f) with
    | inl msg =>
        text' = text ∧
        screen s2 = screen s1 ++ [Error ("Error processing " +:+ name f +:+ ": " +:+ msg)]
    | inr _ =>
        screen s2 = screen s1 ++ [Success ("✅ Processed: " +:+ name f)]
    end.
Proof.
  intros [Hp _]%stage_ret_lookup.
  rewrite (load_step_eq E f p text s1 _ Hp).
  destruct (pdf_pages E (data f)); eexists _, _; (split; [reflexivity|]);
    fields; (split; [apply lookup_delete_eq | auto]).
Qed.

Lemma staging_file_removed_witness :
  ∃ text' s2,
    load_step Demo.env Demo.broken_pdf "/tmp/tmpq3x9.pdf" []
      (set_fs (<["/tmp/tmpq3x9.pdf" := data Demo.broken_pdf]> ∅) Demo.initial)
      = (Ret text', s2) ∧
    fs s2 !! "/tmp/tmpq3x9.pdf" = None ∧
    text' = [] ∧
    screen s2 = [Error "Error processing broken.pdf: EOF marker not found"].
Proof.
  apply (staging_file_removed Demo.env Demo.broken_pdf [] Demo.initial).
  reflexivity.
Defined.

(** ** Ingestion *)

Section Ingestion.

Variable E : Env.

Lemma create_vector_store_ret text em qc s r s' :
  create_vector_store E text em qc s = (Ret r, s') →
  ∃ vs, r = Some vs ∧
    collection_name vs = fresh_collection_name (clock s) ∧
    qdrant s' !! collection_name vs
      = Some {| vectors_config := minilm_cosine; points := text |}.
Proof.
  rewrite create_vector_store_eq. cbv zeta.
  destruct (create_fault E _); [discriminate|].
  destruct (_ !! fresh_collection_name (clock s)); [discriminate|].
  destruct (upsert_fault E _ text); [discriminate|].
  intros [= <- <-]. eexists. split; [reflexivity|]. fields.
  split; [reflexivity | apply lookup_insert_eq].
Qed.

Lemma create_vector_store_session text em qc s :
  session_frame s (create_vector_store E text em qc s).2.
Proof.
  rewrite create_vector_store_eq. cbv zeta.
  destruct (create_fault E _); [by repeat split|].
  destruct (_ !! fresh_collection_name (clock s)); [by repeat split|].
  destruct (upsert_fault E _ text); by repeat split.
Qed.

Lemma loading_session_frame s s' : loading_frame s s' → session_frame s s'.
Proof. intros (?&?&?&_). by repeat split. Qed.

Lemma session_frame_trans s1 s2 s3 :
  session_frame s1 s2 → session_frame s2 s3 → session_frame s1 s3.
Proof.
  unfold session_frame. intros (?&?&?) (?&?&?). repeat split; congruence.
Qed.

(** Ingestion itself never assigns the session values, however it ends. *)
Lemma process_uploaded_files_session files s :
  session_frame s (process_uploaded_files E files s).2.
Proof.
  destruct files as [|f rest]; [by repeat split|].
  rewrite process_uploaded_files_eq.
  pose proof (load_all_frame E (f :: rest) [] s) as Hl%loading_session_frame.
  destruct (load_all E (f :: rest) [] s) as [[[|d text]|e] s1]; fields; try exact Hl.
  destruct (initialize_components_frame E s1) as (r & s2 & -> & Hi%loading_session_frame & _ & Hr).
  eapply session_frame_trans; [exact Hl|].
  destruct Hr as [->|(em & qc & -> & ->)]; [exact Hi|].
  pose proof (create_vector_store_session (d :: text) em qc s1) as Hc.
  destruct (create_vector_store E (d :: text) em qc s1) as [[r|[msg|]] s3]; exact Hc.
Qed.

(** A returned store names a collection that holds what was loaded. *)
Lemma process_uploaded_files_some files s vs s' :
  process_uploaded_files E files s = (Ret (Some vs), s') →
  ∃ d text s1,
    load_all E files [] s = (Ret (d :: text), s1) ∧
    collection_name vs = fresh_collection_name (clock s) ∧
    qdrant s' !! collection_name vs
      = Some {| vectors_config := minilm_cosine; points := d :: text |}.
Proof.
  destruct files as [|f rest]; [discriminate|].
  rewrite process_uploaded_files_eq.
  pose proof (load_all_frame E (f :: rest) [] s) as (_&_&_&_&_&Hclock&_).
  destruct (load_all E (f :: rest) [] s) as [[[|d text]|e] s1]; try discriminate.
  fields.
  destruct (initialize_components_frame E s1) as (r & s2 & -> & _ & _ & Hr).
  destruct Hr as [->|(em & qc & -> & ->)]; [discriminate|].
  destruct (create_vector_store E (d :: text) em qc s1) as [[r|[msg|]] s3] eqn:Hc;
    try discriminate.
  intros [= -> ->].
  apply create_vector_store_ret in Hc as (vs' & [= <-] & Hn & Hq).
  exists d, text, s1. rewrite <- Hclock. auto.
Qed.

(** The decimal rendering of the suffix loses nothing. *)
Lemma fresh_collection_name_inj (t1 t2 : Q) :
  fresh_collection_name t1 = fresh_collection_name t2 ↔ int t1 = int t2.
Proof.
  unfold fresh_collection_name. split; [|by intros ->].
  intros H. simpl in H. injection H as H. by apply (inj pretty).
Qed.

End Ingestion.

Section Sidebar.

Variable E : Env.

(** What the button does to the session: either nothing, or it installs
    the store ingestion returned. *)
Lemma process_documents_button_session w s :
  let s' := (process_documents_button E w s).2 in
  ((vector_store s' = vector_store s ∧ documents_loaded s' = documents_loaded s) ∨
   ∃ vs s1,
     process_uploaded_files E (uploaded_files w) s = (Ret (Some vs), s1) ∧
     vector_store s' = Some vs ∧ documents_loaded s' = true ∧
     qdrant s' = qdrant s1)
  ∧ (∀ s1, process_uploaded_files E (uploaded_files w) s = (Ret None, s1) →
       vector_store s' = vector_store s ∧ documents_loaded s' = documents_loaded s).
Proof.
  unfold process_documents_button.
  pose proof (process_uploaded_files_session E (uploaded_files w) s) as Hs.
  destruct (uploaded_files w) as [|f rest] eqn:Hfiles.
  { simpl. split; [by left|]. auto. }
  destruct (process_documents w).
  2:{ simpl. split; [by left|]. auto. }
  rewrite bind_eq.
  destruct (process_uploaded_files E (f :: rest) s) as [[[vs|]|e] s1] eqn:Hp;
    destruct Hs as (Hsv&_&Hsd); fields.
  - split; [|intros ? [=]]. right. exists vs, s1. auto.
  - split; [left|intros ? _]; split; assumption.
  - split; [left|intros ? [=]]. auto.
Qed.

(** The rest of the sidebar leaves the store, the flag and the service
    alone. *)
Lemma sidebar_eq w s :
  let s' := (sidebar E w s).2 in
  let s1 := (process_documents_button E w s).2 in
  vector_store s' = vector_store s1 ∧ documents_loaded s' = documents_loaded s1 ∧
  qdrant s' = qdrant s1.
Proof.
  unfold sidebar. rewrite bind_eq.
  destruct (process_documents_button E w s) as [[[]|e] s1]; [|by repeat split].
  unfold st_success, st_info, st_rerun. monad_unfold.
  destruct (documents_loaded s1) eqn:Hd, (clear_chat_history w); fields; auto.
Qed.

End Sidebar.

(** ** Queries *)

Section Query.

Variable E : Env.

Lemma rag_chain_call_eq vs query s :
  rag_chain_call E (the_chain vs) query s =
  let s1 := set_calls (calls s ++ [Search (collection_name vs) 3]) s in
  match qdrant s !! collection_name vs with
  | None =>
      (Raise (Exception ("Collection `" +:+ collection_name vs +:+ "` doesn't exist!")), s1)
  | Some c =>
      match nearest E (points c) query 3 with
      | inl msg => (Raise (Exception msg), s1)
      | inr docs =>
          match generate E "llama3.2:3b" query docs with
          | inl msg => (Raise (Exception msg), s1)
          | inr answer => (Ret {| result := answer; source_documents := docs |}, s1)
          end
      end
  end.
Proof.
  unfold rag_chain_call, get_relevant_documents, log_call, the_chain, as_retriever.
  monad_unfold. fields. simpl.
  destruct (qdrant s !! collection_name vs) as [c|]; [|reflexivity].
  destruct (nearest E (points c) query 3) as [msg|docs]; [reflexivity|].
  destruct (generate E _ query docs); reflexivity.
Qed.

(** [get_rag_response] is the chain under [except Exception]. *)
Lemma get_rag_response_eq query vs s :
  get_rag_response E query vs s =
  match rag_chain_call E (the_chain vs) query s with
  | (Ret response, s1) => (Ret (Some (result response), source_documents response), s1)
  | (Raise (Exception msg), s1) =>
      (Ret (None, []),
       set_screen (screen s1 ++ [Error ("Error generating response: " +:+ msg)]) s1)
  | (Raise RerunException, s1) => (Raise RerunException, s1)
  end.
Proof.
  unfold get_rag_response, try_except. cbv zeta. fold (the_chain vs).
  rewrite bind_eq.
  destruct (rag_chain_call E (the_chain vs) query s) as [[r|[msg|]] s1]; reflexivity.
Qed.

(** A query returns, and touches only the request log and the page. *)
Lemma get_rag_response_ret query vs s :
  ∃ r s', get_rag_response E query vs s = (Ret r, s') ∧ query_frame s s' ∧
    calls s' = calls s ++ [Search (collection_name vs) 3].
Proof.
  rewrite get_rag_response_eq, rag_chain_call_eq. cbv zeta.
  destruct (qdrant s !! collection_name vs) as [c|].
  2:{ eexists _, _. split; [reflexivity|]. by repeat split. }
  destruct (nearest E (points c) query 3) as [msg|docs].
  { eexists _, _. split; [reflexivity|]. by repeat split. }
  destruct (generate E _ query docs);
    eexists _, _; (split; [reflexivity|]); by repeat split.
Qed.

(** What the [Ask] button leaves behind, by what the query returned. *)
Lemma ask_question_eq w s vs :
  ask w = true → truthy (query_input w) = true → vector_store s = Some vs →
  ask_question E w s =
  match get_rag_response E (query_input w) vs
          (set_chat_history (chat_history s ++ [("user", query_input w)]) s) with
  | (Ret (Some r, _), s1) =>
      if truthy r
      then (Raise RerunException,
            set_chat_history (chat_history s1 ++ [("assistant", r)]) s1)
      else (Ret tt, s1)
  | (Ret (None, _), s1) => (Ret tt, s1)
  | (Raise e, s1) => (Raise e, s1)
  end.
Proof.
  intros Ha Hq Hvs. unfold ask_question. rewrite Ha, Hq. simpl.
  rewrite bind_eq. unfold get at 1. cbv iota beta. rewrite Hvs.
  rewrite bind_eq. unfold modify at 1. cbv iota beta.
  rewrite bind_eq.
  destruct (get_rag_response E _ vs _) as [[[[r|] docs]|e] s1]; try reflexivity.
  destruct (truthy r); reflexivity.
Qed.

(** The [Ask] button never touches the store, the flag or the service. *)
Lemma ask_question_frame w s :
  let s' := (ask_question E w s).2 in
  vector_store s' = vector_store s ∧ documents_loaded s' = documents_loaded s ∧
  qdrant s' = qdrant s ∧ fs s' = fs s.
Proof.
  cbv zeta.
  destruct (ask w) eqn:Ha;
    [|unfold ask_question; rewrite Ha; by repeat split].
  destruct (truthy (query_input w)) eqn:Hq;
    [|unfold ask_question; rewrite Ha, Hq; by repeat split].
  destruct (vector_store s) as [vs|] eqn:Hvs.
  - rewrite (ask_question_eq w s vs Ha Hq Hvs).
    destruct (get_rag_response_ret (query_input w) vs
                (set_chat_history (chat_history s ++ [("user", query_input w)]) s))
      as ([[r|] docs] & s1 & -> & (Hv&_&Hd&Hq1&_&_&Hf) & _); fields.
    + destruct (truthy r); fields; by rewrite Hv, Hd, Hq1, Hf.
    + by rewrite Hv, Hd, Hq1, Hf.
  - unfold ask_question. rewrite Ha, Hq. simpl. rewrite bind_eq.
    unfold get. cbv iota beta. rewrite Hvs. by repeat split.
Qed.

End Query.

Section Main.

Variable E : Env.

(** After the sidebar, [main] only asks. *)
Lemma main_after_sidebar w s :
  let s' := (main E w s).2 in
  let s1 := (sidebar E w s).2 in
  vector_store s' = vector_store s1 ∧ documents_loaded s' = documents_loaded s1 ∧
  qdrant s' = qdrant s1.
Proof.
  unfold main. rewrite bind_eq.
  destruct (sidebar E w s) as [[[]|e] s1]; [|by repeat split].
  rewrite bind_eq. unfold get. cbv iota beta. fields.
  destruct (documents_loaded s1) eqn:Hd; [|by repeat split].
  destruct (ask_question_frame E w s1) as (?&?&?&_). repeat split; congruence.
Qed.

(** One run of the script either leaves the store and the flag as they
    were, or installs the store that ingestion returned in this run. *)
Lemma main_session w s :
  let s' := (main E w s).2 in
  ((vector_store s' = vector_store s ∧ documents_loaded s' = documents_loaded s) ∨
   ∃ vs s1,
     process_uploaded_files E (uploaded_files w) s = (Ret (Some vs), s1) ∧
     vector_store s' = Some vs ∧ documents_loaded s' = true ∧
     qdrant s' = qdrant s1)
  ∧ (∀ s1, process_uploaded_files E (uploaded_files w) s = (Ret None, s1) →
       vector_store s' = vector_store s ∧ documents_loaded s' = documents_loaded s).
Proof.
  cbv zeta.
  destruct (main_after_sidebar w s) as (Hv&Hd&Hq).
  destruct (sidebar_eq E w s) as (Hv'&Hd'&Hq').
  destruct (process_documents_button_session E w s) as [Hb Hn].
  rewrite Hv, Hd, Hq, Hv', Hd', Hq'. split; [|exact Hn].
  destruct Hb as [?|(vs & s1 & ? & ? & ? & ?)]; [by left|].
  right. exists vs, s1. auto.
Qed.

End Main.

(** ** Ingestion: the claims *)

(** C1. A failed ingestion returns no handle, and the session never gets an
    empty one.  For the files uploaded in a run of the script:
    - if the loop ends with no text, [process_uploaded_files] returns [None];
    - if [initialize_components] yields a missing component, it returns [None];
    - if building the store raises, it returns [None];
    - when it returns [None], [main] leaves [vector_store] and
      [documents_loaded] as they were;
    - [main] either leaves the two as they were or sets them to a store whose
      collection holds at least one entry, and to [True]. *)
Theorem failed_ingest_leaves_no_handle (E : Env) (w : Widgets) (s : State) :
  let files := uploaded_files w in
  let out := process_uploaded_files E files s in
  let s' := (main E w s).2 in
  (∀ s1, load_all E files [] s = (Ret [], s1) → out.1 = Ret None)
  ∧ (∀ text s1 r s2,
       load_all E files [] s = (Ret text, s1) →
       initialize_components E s1 = (Ret r, s2) →
       r.1 = None ∨ r.2 = None →
       out.1 = Ret None)
  ∧ (∀ text s1 em qc s2 msg s3,
       load_all E files [] s = (Ret text, s1) →
       initialize_components E s1 = (Ret (Some em, Some qc), s2) →
       create_vector_store E text em qc s2 = (Raise (Exception msg), s3) →
       out.1 = Ret None)
  ∧ (out.1 = Ret None →
       vector_store s' = vector_store s ∧ documents_loaded s' = documents_loaded s)
  ∧ ((vector_store s' = vector_store s ∧ documents_loaded s' = documents_loaded s) ∨
     ∃ vs c,
       vector_store s' = Some vs ∧ documents_loaded s' = true ∧
       qdrant s' !! collection_name vs = Some c ∧ points c ≠ []).
Proof.
  cbv zeta. destruct (main_session E w s) as [Hset Hnone].
  split; [|split; [|split; [|split]]].
  - intros s1 H. destruct (uploaded_files w) as [|f rest]; [reflexivity|].
    by rewrite process_uploaded_files_eq, H.
  - intros text s1 r s2 H Hi Hr.
    destruct (uploaded_files w) as [|f rest]; [reflexivity|].
    rewrite process_uploaded_files_eq, H.
    destruct text; [reflexivity|]. rewrite Hi.
    destruct r as [[em|] [qc|]]; try reflexivity. by destruct Hr.
  - intros text s1 em qc s2 msg s3 H Hi Hc.
    destruct (uploaded_files w) as [|f rest]; [reflexivity|].
    rewrite process_uploaded_files_eq, H.
    destruct text; [reflexivity|]. by rewrite Hi, Hc.
  - intros H. apply (Hnone (process_uploaded_files E (uploaded_files w) s).2).
    destruct (process_uploaded_files E (uploaded_files w) s); simpl in *; congruence.
  - destruct Hset as [?|(vs & s1 & Hp & Hv & Hd & Hq)]; [by left|]. right.
    apply process_uploaded_files_some in Hp as (d & text & _ & _ & _ & Hc).
    exists vs, {| vectors_config := minilm_cosine; points := d :: text |}.
    rewrite Hq. by repeat split.
Qed.

Lemma failed_ingest_leaves_no_handle_witness :
  (process_uploaded_files Demo.env [Demo.broken_pdf] Demo.initial).1 = Ret None
  ∧ (process_uploaded_files Demo.env_embeddings_down [Demo.sky_pdf] Demo.initial).1 = Ret None
  ∧ (process_uploaded_files Demo.env_upsert_fails [Demo.sky_pdf] Demo.initial).1 = Ret None
  ∧ vector_store (main Demo.env_upsert_fails (Demo.click_process [Demo.sky_pdf]) Demo.initial).2
    = None.
Proof.
  split; [|split; [|split]].
  - pose proof (failed_ingest_leaves_no_handle Demo.env
                  (Demo.click_process [Demo.broken_pdf]) Demo.initial) as (H&_).
    eapply H. vm_compute. reflexivity.
  - pose proof (failed_ingest_leaves_no_handle Demo.env_embeddings_down
                  (Demo.click_process [Demo.sky_pdf]) Demo.initial) as (_&H&_).
    eapply H; [vm_compute; reflexivity | vm_compute; reflexivity | left; reflexivity].
  - pose proof (failed_ingest_leaves_no_handle Demo.env_upsert_fails
                  (Demo.click_process [Demo.sky_pdf]) Demo.initial) as (_&_&H&_).
    eapply H; vm_compute; reflexivity.
  - pose proof (failed_ingest_leaves_no_handle Demo.env_upsert_fails
                  (Demo.click_process [Demo.sky_pdf]) Demo.initial) as (_&_&_&H&_).
    apply H. vm_compute. reflexivity.
Defined.

(** C3. On success the index holds exactly the extracted TextUnits, in
    order.  If [process_uploaded_files] returns a store, the collection it
    names holds one entry per page of every file that parsed, file by file
    and page by page: same page numbers, same texts, same count. *)
Theorem index_holds_extracted_text_units
    (E : Env) (files : list UploadedFile) (s s' : State) (vs : Qdrant) :
  process_uploaded_files E files s = (Ret (Some vs), s') →
  ∃ c,
    qdrant s' !! collection_name vs = Some c ∧
    (λ d, (page d, page_content d)) <$> points c = text_units E files ∧
    length (points c) = length (text_units E files).
Proof.
  intros (d & text & s1 & Hl & _ & Hc)%process_uploaded_files_some.
  apply load_all_ret in Hl as [Ht _]. simpl in Ht.
  eexists. split; [exact Hc|]. simpl. split; [exact Ht|].
  rewrite <- Ht. simpl. by rewrite length_fmap.
Qed.

Lemma index_holds_extracted_text_units_witness :
  ∃ c,
    qdrant (process_uploaded_files Demo.env [Demo.broken_pdf; Demo.sky_pdf] Demo.initial).2
      !! "RAG_PDF_1000" = Some c ∧
    (λ d, (page d, page_content d)) <$> points c
      = [(0, "The sky is blue."); (1, "Grass is green."); (2, "Snow is white.")] ∧
    length (points c) = 3.
Proof.
  apply (index_holds_extracted_text_units Demo.env [Demo.broken_pdf; Demo.sky_pdf]
           Demo.initial _
           {| collection_name := "RAG_PDF_1000";
              embedding := {| model_name := minilm |};
              store_url := None; store_api_key := None |}).
  vm_compute. reflexivity.
Defined.

(** C4, as the code has it.  The name of a batch's collection is [RAG_PDF_]
    followed by the clock reading cut to whole seconds, so two successful
    batches get the same name exactly when they read the clock within the
    same second. *)
Theorem collection_names_differ_by_second
    (E1 E2 : Env) (files1 files2 : list UploadedFile)
    (s1 s1' s2 s2' : State) (vs1 vs2 : Qdrant) :
  process_uploaded_files E1 files1 s1 = (Ret (Some vs1), s1') →
  process_uploaded_files E2 files2 s2 = (Ret (Some vs2), s2') →
  (collection_name vs1 = collection_name vs2 ↔ int (clock s1) = int (clock s2)).
Proof.
  intros (_&_&_&_&Hn1&_)%process_uploaded_files_some
         (_&_&_&_&Hn2&_)%process_uploaded_files_some.
  rewrite Hn1, Hn2. apply fresh_collection_name_inj.
Qed.

Lemma collection_names_differ_by_second_witness :
  "RAG_PDF_1000" = "RAG_PDF_1001" ↔ int (4001 # 4) = int (4005 # 4).
Proof.
  eapply (collection_names_differ_by_second Demo.env Demo.env
           [Demo.sky_pdf] [Demo.grass_pdf]
           Demo.initial _ (set_clock (4005 # 4) Demo.initial) _
           {| collection_name := "RAG_PDF_1000";
              embedding := {| model_name := minilm |};
              store_url := None; store_api_key := None |}
           {| collection_name := "RAG_PDF_1001";
              embedding := {| model_name := minilm |};
              store_url := None; store_api_key := None |});
    vm_compute; reflexivity.
Defined.

(** C4, refuted as stated.  Two batches run one after the other, the second
    half a second after the first began (clock readings 1000.25 and
    1000.75): both succeed, both collections are named [RAG_PDF_1000], and
    the name the first store holds now leads to the second batch's page. *)
Lemma collection_name_collision :
  ¬ (clock Demo.initial == 4003 # 4)%Q ∧
  ∃ vs1 vs2,
    Demo.first_batch.1 = Ret (Some vs1) ∧ Demo.second_batch.1 = Ret (Some vs2) ∧
    collection_name vs1 = "RAG_PDF_1000" ∧
    collection_name vs2 = "RAG_PDF_1000" ∧
    (λ c, page_content <$> points c) <$> qdrant Demo.first_batch.2 !! collection_name vs1
      = Some ["The sky is blue."; "Grass is green."; "Snow is white."] ∧
    (λ c, page_content <$> points c) <$> qdrant Demo.second_batch.2 !! collection_name vs1
      = Some ["Grass is green."].
Proof.
  split; [by vm_compute|].
  eexists _, _. vm_compute. repeat split; reflexivity.
Qed.

(** C8. Delete before create.  Whatever the service answers to the
    deletion, the attempt returns normally and shows nothing; the requests
    of a batch start with the deletion of the generated name, followed by
    the creation of that name for 384-dimensional cosine vectors; and when
    the batch succeeds the collection has that configuration. *)
Theorem delete_before_create
    (E : Env) (text : list Document) (em : HuggingFaceEmbeddings)
    (qc : QdrantClient) (s : State) :
  let cname := fresh_collection_name (clock s) in
  let out := create_vector_store E text em qc s in
  (∃ s1, try_delete_collection E qc cname s = (Ret tt, s1) ∧ screen s1 = screen s)
  ∧ (∃ more,
       calls out.2 =
       calls s ++ DeleteCollection cname
                  :: CreateCollection cname {| size := 384; distance := COSINE |}
                  :: more)
  ∧ (∀ r s', out = (Ret r, s') →
       ∃ c, qdrant s' !! cname = Some c ∧
            vectors_config c = {| size := 384; distance := COSINE |}).
Proof.
  cbv zeta. split; [|split].
  - rewrite try_delete_collection_eq. eexists. split; [reflexivity|].
    fields. by destruct (delete_fault E _).
  - rewrite create_vector_store_eq. cbv zeta.
    destruct (create_fault E _); [by exists []|].
    destruct (_ !! fresh_collection_name (clock s)); [by exists []|].
    destruct (upsert_fault E _ text); fields;
      exists [Upsert (fresh_collection_name (clock s)) (length text)];
      by rewrite <- app_assoc.
  - intros r s' (vs & _ & Hn & Hq)%create_vector_store_ret.
    rewrite <- Hn. eexists. split; [exact Hq|reflexivity].
Qed.

Lemma delete_before_create_witness :
  ∃ c,
    qdrant (create_vector_store Demo.env_delete_fails
              [{| page_content := "The sky is blue."; source := "/tmp/tmpq3x9.pdf"; page := 0 |}]
              {| model_name := minilm |} {| url := None; api_key := None |}
              Demo.initial).2 !! "RAG_PDF_1000" = Some c ∧
    vectors_config c = {| size := 384; distance := COSINE |}.
Proof.
  pose proof (delete_before_create Demo.env_delete_fails
    [{| page_content := "The sky is blue."; source := "/tmp/tmpq3x9.pdf"; page := 0 |}]
    {| model_name := minilm |} {| url := None; api_key := None |} Demo.initial) as (_&_&H).
  eapply H. vm_compute. reflexivity.
Defined.

(** ** Queries: the claims *)

(** C5, as the code has it.  The retriever is built with [k = 3] written in
    the call: every query sends one search request, with limit 3, and what
    the query returns does not depend on the process environment. *)
Theorem retrieval_k_is_three
    (E : Env) (query : string) (vs : Qdrant) (s : State)
    (vars : gmap string string) :
  k (retriever (the_chain vs)) = 3
  ∧ calls (get_rag_response E query vs s).2 = calls s ++ [Search (collection_name vs) 3]
  ∧ (get_rag_response E query vs (set_environ vars s)).1
    = (get_rag_response E query vs s).1.
Proof.
  split; [reflexivity|]. split.
  - destruct (get_rag_response_ret E query vs s) as (r & s' & Heq & _ & Hcalls).
    rewrite Heq. exact Hcalls.
  - rewrite !get_rag_response_eq, !rag_chain_call_eq. cbv zeta. fields.
    destruct (qdrant s !! collection_name vs) as [c|]; [|reflexivity].
    destruct (nearest E (points c) query 3) as [msg|docs]; [reflexivity|].
    destruct (generate E _ query docs); reflexivity.
Qed.

(** C5, refuted as stated.  With [RETRIEVAL_K=5] in the environment and
    five entries in the index, a query still asks for three and gets
    three. *)
Lemma retrieval_k_ignores_environment :
  environ Demo.ready_k5 !! "RETRIEVAL_K" = Some "5"
  ∧ (λ c, length (points c)) <$> qdrant Demo.ready_k5 !! "RAG_PDF_1000" = Some 5
  ∧ vector_store Demo.ready_k5 = Some Demo.sky_store
  ∧ ∃ answer docs s',
      get_rag_response Demo.env "How many?" Demo.sky_store Demo.ready_k5
        = (Ret (Some answer, docs), s')
      ∧ length docs = 3
      ∧ calls s' = calls Demo.ready_k5 ++ [Search "RAG_PDF_1000" 3].
Proof.
  vm_compute. repeat split. eexists _, _, _. repeat split.
Qed.

(** C6. A failed query leaves the Ready state intact.  In a session that
    holds a store with [documents_loaded] set, if the query the [Ask] button
    runs fails ([get_rag_response] returns [None] and no sources), then
    afterwards the store and the flag are what they were and so is every
    collection of the service; the button returns normally. *)
Theorem failed_query_keeps_ready_state
    (E : Env) (w : Widgets) (s : State) (vs : Qdrant) :
  vector_store s = Some vs →
  documents_loaded s = true →
  ask w = true →
  truthy (query_input w) = true →
  (get_rag_response E (query_input w) vs
     (set_chat_history (chat_history s ++ [("user", query_input w)]) s)).1
    = Ret (None, []) →
  (ask_question E w s).1 = Ret tt
  ∧ vector_store (ask_question E w s).2 = Some vs
  ∧ documents_loaded (ask_question E w s).2 = true
  ∧ qdrant (ask_question E w s).2 = qdrant s.
Proof.
  intros Hvs Hdl Ha Hq Hfail.
  destruct (ask_question_frame E w s) as (Hv & Hd & Hc & _).
  rewrite Hv, Hd, Hc, Hvs, Hdl. split; [|done].
  rewrite (ask_question_eq E w s vs Ha Hq Hvs).
  destruct (get_rag_response E _ vs _) as [o s1]. simpl in Hfail. by subst o.
Qed.

Lemma failed_query_keeps_ready_state_witness :
  (ask_question Demo.env_llm_down (Demo.click_ask "What color is the sky?") Demo.ready).1
    = Ret tt
  ∧ vector_store
      (ask_question Demo.env_llm_down (Demo.click_ask "What color is the sky?") Demo.ready).2
    = Some Demo.sky_store
  ∧ documents_loaded
      (ask_question Demo.env_llm_down (Demo.click_ask "What color is the sky?") Demo.ready).2
    = true
  ∧ qdrant
      (ask_question Demo.env_llm_down (Demo.click_ask "What color is the sky?") Demo.ready).2
    = qdrant Demo.ready.
Proof.
  apply (failed_query_keeps_ready_state Demo.env_llm_down
           (Demo.click_ask "What color is the sky?") Demo.ready Demo.sky_store);
    vm_compute; reflexivity.
Defined.

(** C10. The conversation log is written before the chain runs.  When
    [Ask] is pressed with a question and a store is loaded, the chain runs
    in a state whose log already ends with the user turn; if the chain
    raises, the log afterwards is the old log plus that one user turn; if
    it returns, an assistant turn follows exactly when the answer is not
    empty. *)
Theorem query_log_not_atomic
    (E : Env) (w : Widgets) (s : State) (vs : Qdrant) :
  ask w = true →
  truthy (query_input w) = true →
  vector_store s = Some vs →
  match rag_chain_call E (the_chain vs) (query_input w)
          (set_chat_history (chat_history s ++ [("user", query_input w)]) s) with
  | (Raise _, _) =>
      chat_history (ask_question E w s).2
        = chat_history s ++ [("user", query_input w)]
  | (Ret response, _) =>
      chat_history (ask_question E w s).2
        = chat_history s ++ [("user", query_input w)] ++
          (if truthy (result response) then [("assistant", result response)] else [])
  end.
Proof.
  intros Ha Hq Hvs.
  rewrite (ask_question_eq E w s vs Ha Hq Hvs), get_rag_response_eq, rag_chain_call_eq.
  cbv zeta. fields.
  destruct (qdrant s !! collection_name vs) as [c|]; fields; [|reflexivity].
  destruct (nearest E (points c) (query_input w) 3) as [msg|docs]; fields; [reflexivity|].
  destruct (generate E _ (query_input w) docs) as [msg|answer]; fields; [reflexivity|].
  cbn [result].
  destruct (truthy answer); fields; [by rewrite <- app_assoc | by rewrite app_nil_r].
Qed.

Lemma query_log_not_atomic_witness :
  chat_history
    (ask_question Demo.env_llm_down (Demo.click_ask "What color is the sky?") Demo.ready).2
  = [("user", "What color is the sky?")].
Proof.
  apply (query_log_not_atomic Demo.env_llm_down
           (Demo.click_ask "What color is the sky?") Demo.ready Demo.sky_store);
    vm_compute; reflexivity.
Defined.

(** ** The orchestrator boundary *)

Section Boundary.

Variable E : Env.

(** With staging out of the way the loop runs to its end. *)
Lemma load_all_returns files :
  (∀ f, f ∈ files → read_fault E f = None) →
  (∀ p b, write_fault E p b = None) →
  ∀ text s, ∃ text' s', load_all E files text s = (Ret text', s').
Proof.
  intros Hr Hw. induction files as [|f rest IH]; intros text s; [by eexists _, _|].
  rewrite load_all_cons by (auto; apply Hr; set_solver). cbv zeta.
  destruct (pdf_pages E (data f)); apply IH; intros; apply Hr; set_solver.
Qed.



End Boundary.

(** C9, at the failing input.  The disk is full, so writing the staging file
    raises; lines 140-142 are outside every [try], so the exception leaves
    [process_uploaded_files], and [main] with it.  Nothing has been shown,
    and the empty staging file is still on disk. *)
Lemma staging_failure_escapes :
  (process_uploaded_files Demo.env_disk_full [Demo.sky_pdf] Demo.initial).1
    = Raise (Exception "[Errno 28] No space left on device")
  ∧ (main Demo.env_disk_full (Demo.click_process [Demo.sky_pdf]) Demo.initial).1
    = Raise (Exception "[Errno 28] No space left on device")
  ∧ screen (main Demo.env_disk_full (Demo.click_process [Demo.sky_pdf]) Demo.initial).2 = []
  ∧ fs (main Demo.env_disk_full (Demo.click_process [Demo.sky_pdf]) Demo.initial).2
      !! "/tmp/tmpq3x9.pdf" = Some [].
Proof. vm_compute. repeat split. Qed.

(** ** The scenarios of the specification, run *)

(** One unparsable upload and one valid three-page PDF: ingestion succeeds,
    reports one failure, and the index has three entries. *)
Example one_broken_one_valid :
  (process_uploaded_files Demo.env [Demo.broken_pdf; Demo.sky_pdf] Demo.initial).1
    = Ret (Some Demo.sky_store)
  ∧ screen (process_uploaded_files Demo.env [Demo.broken_pdf; Demo.sky_pdf] Demo.initial).2
    = [Error "Error processing broken.pdf: EOF marker not found";
       Success "✅ Processed: sky.pdf";
       Success "✅ Successfully created vector store with 3 document chunks"]
  ∧ (λ c, length (points c)) <$>
      qdrant (process_uploaded_files Demo.env [Demo.broken_pdf; Demo.sky_pdf] Demo.initial).2
        !! "RAG_PDF_1000"
    = Some 3
  ∧ fs (process_uploaded_files Demo.env [Demo.broken_pdf; Demo.sky_pdf] Demo.initial).2 = ∅.
Proof. vm_compute. repeat split. Qed.

(** A question against the ready session: one user turn, one assistant
    turn, and a rerun of the script. *)
Example ask_the_sky :
  (main Demo.env (Demo.click_ask "What color is the sky?") Demo.ready).1
    = Raise RerunException
  ∧ chat_history (main Demo.env (Demo.click_ask "What color is the sky?") Demo.ready).2
    = [("user", "What color is the sky?"); ("assistant", "The sky is blue.")].
Proof. vm_compute. repeat split. Qed.

(** ** Further properties of the loading loop *)

Section LoadingMore.

Variable E : Env.

Lemma load_all_fs files :
  ∀ text s text' s',
    tmp_name E (dom (fs s)) ∉ dom (fs s) →
    load_all E files text s = (Ret text', s') →
    fs s' = fs s.
Proof.
  induction files as [|f rest IH]; intros text s text' s' Hfresh H.
  - by injection H as _ <-.
  - simpl in H.
    apply bind_ret_inv in H as (p & s1 & Hst & H).
    apply bind_ret_inv in H as (t1 & s2 & Hld & H).
    apply stage_ret in Hst as [-> ->].
    rewrite (load_step_eq E f _ text _ (data f)) in Hld
      by (fields; apply lookup_insert_eq).
    assert (Hfs : fs s2 = fs s).
    { destruct (pdf_pages E (data f)); injection Hld as _ <-; fields;
        rewrite delete_insert_eq; apply delete_id; by apply not_elem_of_dom. }
    apply IH in H; [congruence | by rewrite Hfs].
Qed.

Lemma create_vector_store_fs text em qc s :
  fs (create_vector_store E text em qc s).2 = fs s.
Proof.
  rewrite create_vector_store_eq. cbv zeta.
  destruct (create_fault E _); [done|].
  destruct (_ !! fresh_collection_name (clock s)); [done|].
  destruct (upsert_fault E _ text); done.
Qed.

End LoadingMore.

(** X1. [initialize_components] never raises and never returns half a
    pair: either both components, the client carrying [QDRANT_URL] and
    [QDRANT_API_KEY] as the environment has them, with nothing shown; or
    [(None, None)] with exactly one error message. *)
Theorem initialize_components_all_or_nothing (E : Env) (s : State) :
  ∃ r s',
    initialize_components E s = (Ret r, s') ∧
    ((r = (Some {| model_name := "sentence-transformers/all-MiniLM-L6-v2" |},
           Some {| url := environ s !! "QDRANT_URL";
                   api_key := environ s !! "QDRANT_API_KEY" |})
      ∧ s' = s)
     ∨ (r = (None, None) ∧
        ∃ msg, s' = set_screen
                      (screen s ++ [Error ("Error initializing components: " +:+ msg)]) s)).
Proof.
  rewrite initialize_components_eq.
  destruct (embeddings_fault E minilm) as [msg|].
  { eexists _, _. split; [reflexivity|]. right. eauto. }
  destruct (client_fault E _ _) as [msg|].
  { eexists _, _. split; [reflexivity|]. right. eauto. }
  eexists _, _. split; [reflexivity|]. by left.
Qed.

(** X2. Every staged file gets exactly one report.  When the loop runs to
    its end, what it has shown is one message per uploaded file, in upload
    order: a success naming the file if it parsed, an error naming it and
    carrying the loader's message if it did not. *)
Theorem every_file_reported
    (E : Env) (files : list UploadedFile) (text text' : list Document)
    (s s' : State) :
  load_all E files text s = (Ret text', s') →
  screen s' = screen s ++ (report E <$> files)
  ∧ length (screen s') = length (screen s) + length files.
Proof.
  intros H%load_all_screen. rewrite H. split; [done|].
  by rewrite length_app, length_fmap.
Qed.

Lemma every_file_reported_witness :
  screen (load_all Demo.env [Demo.broken_pdf; Demo.sky_pdf] [] Demo.initial).2
    = [] ++ (report Demo.env <$> [Demo.broken_pdf; Demo.sky_pdf])
  ∧ length (screen (load_all Demo.env [Demo.broken_pdf; Demo.sky_pdf] [] Demo.initial).2)
    = 0 + 2.
Proof.
  eapply (every_file_reported Demo.env [Demo.broken_pdf; Demo.sky_pdf] [] _ Demo.initial).
  vm_compute. reflexivity.
Defined.

(** X3. An ingestion that returns leaves the disk as it found it.  If the
    name picked for the staging file is not in use, then whatever
    [process_uploaded_files] returns, the files on disk afterwards are the
    files that were there before. *)
Theorem ingest_leaves_disk_clean
    (E : Env) (files : list UploadedFile) (s s' : State) (r : option Qdrant) :
  tmp_name E (dom (fs s)) ∉ dom (fs s) →
  process_uploaded_files E files s = (Ret r, s') →
  fs s' = fs s.
Proof.
  intros Hfresh. destruct files as [|f rest]; [by intros [= _ <-]|].
  rewrite process_uploaded_files_eq.
  destruct (load_all E (f :: rest) [] s) as [[[|d text]|e] s1] eqn:Hl;
    [| |discriminate]; apply (load_all_fs E _ _ _ _ _ Hfresh) in Hl.
  { by intros [= _ <-]. }
  destruct (initialize_components_frame E s1) as (ri & s2 & -> & _ & Hfs2 & Hres).
  destruct Hres as [->|(em & qc & -> & ->)]; [intros [= _ <-]; congruence|].
  pose proof (create_vector_store_fs E (d :: text) em qc s1) as Hc.
  destruct (create_vector_store E (d :: text) em qc s1) as [[r'|[msg|]] s3];
    intros [= _ <-]; fields; congruence.
Qed.

Lemma ingest_leaves_disk_clean_witness :
  fs (process_uploaded_files Demo.env [Demo.broken_pdf; Demo.sky_pdf] Demo.initial).2
    = fs Demo.initial.
Proof.
  eapply (ingest_leaves_disk_clean Demo.env [Demo.broken_pdf; Demo.sky_pdf]).
  - vm_compute. set_solver.
  - vm_compute. reflexivity.
Defined.



(** ** Further properties of queries and of the index *)

Section IndexMore.

Variable E : Env.

(** Building the store reads and writes one collection only. *)
Lemma create_vector_store_other text em qc s cname :
  cname ≠ fresh_collection_name (clock s) →
  qdrant (create_vector_store E text em qc s).2 !! cname = qdrant s !! cname.
Proof.
  intros Hne. rewrite create_vector_store_eq. cbv zeta.
  assert (Hq1 : match delete_fault E (fresh_collection_name (clock s)) with
                | Some _ => qdrant s
                | None => delete (fresh_collection_name (clock s)) (qdrant s)
                end !! cname = qdrant s !! cname).
  { destruct (delete_fault E _); [done|]. by rewrite lookup_delete_ne. }
  destruct (create_fault E _); [exact Hq1|].
  destruct (_ !! fresh_collection_name (clock s)); [exact Hq1|].
  destruct (upsert_fault E _ text); fields; by rewrite lookup_insert_ne.
Qed.

(** When the stale collection cannot be deleted, building the store raises
    and leaves the service as it was. *)
Lemma create_vector_store_stale text em qc s m c :
  delete_fault E (fresh_collection_name (clock s)) = Some m →
  qdrant s !! fresh_collection_name (clock s) = Some c →
  ∃ msg s', create_vector_store E text em qc s = (Raise (Exception msg), s') ∧
            qdrant s' = qdrant s.
Proof.
  intros Hd Hq. rewrite create_vector_store_eq. cbv zeta. rewrite Hd, Hq.
  destruct (create_fault E _); by eexists _, _.
Qed.

End IndexMore.

(** On a clock that has passed the epoch, [int] is the floor. *)
Lemma int_floor (t : Q) : (0 <= t)%Q → int t = Qfloor t.
Proof.
  destruct t as [n d]. unfold Qle, int, Qfloor. simpl. intros Hn.
  apply Z.quot_div_nonneg; lia.
Qed.

Lemma int_one_second_apart (t1 t2 : Q) :
  (0 <= t1)%Q → (t1 + 1 <= t2)%Q → (int t1 < int t2)%Z.
Proof.
  intros H0 H1.
  assert (H2 : (0 <= t2)%Q).
  { eapply Qle_trans; [exact H0|]. eapply Qle_trans; [|exact H1].
    rewrite <- (Qplus_0_r t1) at 1. apply Qplus_le_r. discriminate. }
  rewrite !int_floor by assumption.
  assert (Hle : (inject_Z (Qfloor t1 + 1) <= t2)%Q).
  { eapply Qle_trans; [|exact H1]. rewrite inject_Z_plus.
    apply Qplus_le_l. apply Qfloor_le. }
  apply Qfloor_resp_le in Hle. rewrite Qfloor_Z in Hle. lia.
Qed.

(** X5. A query never raises, and its sources are what the answer was made
    from.  [get_rag_response] always returns, changing nothing but the
    request log and the page.  Either it returns an answer with its
    sources, in which case nothing is shown, the sources are the documents
    the retriever gave for the store's collection with limit 3, and the
    answer is what the model generated from exactly those; or it returns
    [None] with no sources and shows one error message. *)
Theorem get_rag_response_never_raises
    (E : Env) (query : string) (vs : Qdrant) (s : State) :
  ∃ r s',
    get_rag_response E query vs s = (Ret r, s') ∧
    query_frame s s' ∧
    ((∃ answer docs c,
        r = (Some answer, docs) ∧ screen s' = screen s ∧
        qdrant s !! collection_name vs = Some c ∧
        nearest E (points c) query 3 = inr docs ∧
        generate E "llama3.2:3b" query docs = inr answer)
     ∨ (r = (None, []) ∧
        ∃ msg, screen s' = screen s ++ [Error ("Error generating response: " +:+ msg)])).
Proof.
  rewrite get_rag_response_eq, rag_chain_call_eq. cbv zeta.
  destruct (qdrant s !! collection_name vs) as [c|] eqn:Hc.
  2:{ eexists _, _. split; [reflexivity|]. split; [by repeat split|].
      right. split; [done|]. by eexists. }
  destruct (nearest E (points c) query 3) as [msg|docs] eqn:Hn.
  { eexists _, _. split; [reflexivity|]. split; [by repeat split|].
    right. split; [done|]. by eexists. }
  destruct (generate E _ query docs) as [msg|answer] eqn:Hg.
  { eexists _, _. split; [reflexivity|]. split; [by repeat split|].
    right. split; [done|]. by eexists. }
  eexists _, _. split; [reflexivity|]. split; [by repeat split|].
  left. exists answer, docs, c. by repeat split.
Qed.

(** X6. Ingestion touches no collection but its own.  However
    [process_uploaded_files] ends, every collection whose name is not the
    one generated for this batch is exactly as it was. *)
Theorem ingest_touches_only_its_collection
    (E : Env) (files : list UploadedFile) (s : State) (cname : string) :
  cname ≠ fresh_collection_name (clock s) →
  qdrant (process_uploaded_files E files s).2 !! cname = qdrant s !! cname.
Proof.
  intros Hne. destruct files as [|f rest]; [done|].
  rewrite process_uploaded_files_eq.
  pose proof (load_all_frame E (f :: rest) [] s) as (_&_&_&Hq&_&Hclock&_).
  destruct (load_all E (f :: rest) [] s) as [[[|d text]|e] s1]; fields;
    [by rewrite Hq| |by rewrite Hq].
  destruct (initialize_components_frame E s1) as (r & s2 & -> & (_&_&_&Hq2&_) & _ & Hres).
  destruct Hres as [->|(em & qc & -> & ->)]; fields; [by rewrite Hq2, Hq|].
  rewrite <- Hclock in Hne.
  pose proof (create_vector_store_other E (d :: text) em qc s1 cname Hne) as Hc.
  destruct (create_vector_store E (d :: text) em qc s1) as [[r'|[msg|]] s3];
    fields; by rewrite Hc, Hq.
Qed.

Lemma ingest_touches_only_its_collection_witness :
  qdrant (process_uploaded_files Demo.env [Demo.grass_pdf]
            (set_clock (4005 # 4) Demo.ready)).2 !! "RAG_PDF_1000"
  = qdrant (set_clock (4005 # 4) Demo.ready) !! "RAG_PDF_1000".
Proof.
  apply (ingest_touches_only_its_collection Demo.env [Demo.grass_pdf]
           (set_clock (4005 # 4) Demo.ready) "RAG_PDF_1000").
  by vm_compute.
Defined.

(** X7. Batches a second apart never share a name.  On a clock that has
    passed the epoch, two successful batches whose clock readings are at
    least one second apart get different collection names. *)
Theorem names_differ_one_second_apart
    (E1 E2 : Env) (files1 files2 : list UploadedFile)
    (s1 s1' s2 s2' : State) (vs1 vs2 : Qdrant) :
  process_uploaded_files E1 files1 s1 = (Ret (Some vs1), s1') →
  process_uploaded_files E2 files2 s2 = (Ret (Some vs2), s2') →
  (0 <= clock s1)%Q →
  (clock s1 + 1 <= clock s2)%Q →
  collection_name vs1 ≠ collection_name vs2.
Proof.
  intros (_&_&_&_&Hn1&_)%process_uploaded_files_some
         (_&_&_&_&Hn2&_)%process_uploaded_files_some H0 H1.
  rewrite Hn1, Hn2. intros Heq%fresh_collection_name_inj.
  pose proof (int_one_second_apart _ _ H0 H1). lia.
Qed.

Lemma names_differ_one_second_apart_witness :
  "RAG_PDF_1000" ≠ "RAG_PDF_1001".
Proof.
  eapply (names_differ_one_second_apart Demo.env Demo.env
            [Demo.sky_pdf] [Demo.grass_pdf]
            Demo.initial _ (set_clock (4005 # 4) Demo.initial) _
            {| collection_name := "RAG_PDF_1000";
               embedding := {| model_name := minilm |};
               store_url := None; store_api_key := None |}
            {| collection_name := "RAG_PDF_1001";
               embedding := {| model_name := minilm |};
               store_url := None; store_api_key := None |});
    vm_compute; (reflexivity || discriminate).
Defined.

(** X8. A stale collection that cannot be deleted is never merged into.
    If the service refuses the deletion and a collection of the generated
    name exists, then whenever [process_uploaded_files] returns it returns
    [None], and every collection is as it was. *)
Theorem stale_collection_never_merged
    (E : Env) (files : list UploadedFile) (s s' : State)
    (r : option Qdrant) (m : string) (c : Collection) :
  delete_fault E (fresh_collection_name (clock s)) = Some m →
  qdrant s !! fresh_collection_name (clock s) = Some c →
  process_uploaded_files E files s = (Ret r, s') →
  r = None ∧ qdrant s' = qdrant s.
Proof.
  intros Hd Hc. destruct files as [|f rest]; [by intros [= <- <-]|].
  rewrite process_uploaded_files_eq.
  pose proof (load_all_frame E (f :: rest) [] s) as (_&_&_&Hq&_&Hclock&_).
  destruct (load_all E (f :: rest) [] s) as [[[|d text]|e] s1]; fields;
    [by intros [= <- <-]| |discriminate].
  destruct (initialize_components_frame E s1) as (ri & s2 & -> & (_&_&_&Hq2&_) & _ & Hres).
  destruct Hres as [->|(em & qc & -> & ->)]; fields;
    [intros [= <- <-]; split; congruence|].
  rewrite <- Hclock in Hd, Hc. rewrite <- Hq in Hc.
  destruct (create_vector_store_stale E (d :: text) em qc s1 m c Hd Hc)
    as (msg & s3 & -> & Hq3).
  intros [= <- <-]. fields. split; congruence.
Qed.

Lemma stale_collection_never_merged_witness :
  (process_uploaded_files Demo.env_delete_fails [Demo.grass_pdf] Demo.ready).1 = Ret None
  ∧ qdrant (process_uploaded_files Demo.env_delete_fails [Demo.grass_pdf] Demo.ready).2
    = qdrant Demo.ready.
Proof.
  destruct (process_uploaded_files Demo.env_delete_fails [Demo.grass_pdf] Demo.ready)
    as [o s'] eqn:Hp.
  assert (Ho : ∃ r, o = Ret r) by (vm_compute in Hp; injection Hp as <- _; by eexists).
  destruct Ho as [r ->].
  destruct (stale_collection_never_merged Demo.env_delete_fails [Demo.grass_pdf]
              Demo.ready s' r "Forbidden"
              {| vectors_config := minilm_cosine;
                 points := imap (λ i t, {| page_content := t;
                                           source := "/tmp/tmpq3x9.pdf"; page := i |})
                             ["The sky is blue."; "Grass is green."; "Snow is white."] |})
    as [-> Hq]; [reflexivity | vm_compute; reflexivity | exact Hp |].
  split; [reflexivity | exact Hq].
Defined.

(** ** Further properties of a run of the script *)

Section RunMore.

Variable E : Env.

Lemma process_documents_button_idle w s :
  uploaded_files w = [] ∨ process_documents w = false →
  process_documents_button E w s = (Ret tt, s).
Proof.
  unfold process_documents_button. intros [->| ->]; [done|].
  by destruct (uploaded_files w).
Qed.

Lemma process_documents_button_chat w s :
  chat_history (process_documents_button E w s).2 = chat_history s.
Proof.
  unfold process_documents_button.
  pose proof (process_uploaded_files_session E (uploaded_files w) s) as (_&Hc&_).
  destruct (uploaded_files w) as [|f rest]; [done|].
  destruct (process_documents w); [|done].
  rewrite bind_eq.
  by destruct (process_uploaded_files E (f :: rest) s) as [[[vs|]|e] s1].
Qed.

Lemma process_documents_button_some w s vs s1 :
  process_documents w = true →
  process_uploaded_files E (uploaded_files w) s = (Ret (Some vs), s1) →
  process_documents_button E w s
  = (Ret tt, set_documents_loaded true (set_vector_store (Some vs) s1)).
Proof.
  intros Hp H. unfold process_documents_button. rewrite Hp.
  destruct (uploaded_files w) as [|f rest]; [discriminate|].
  by rewrite bind_eq, H.
Qed.

Lemma sidebar_cases w s :
  sidebar E w s =
  match process_documents_button E w s with
  | (Ret _, s1) =>
      let s2 := set_screen (screen s1 ++ [status_message s1]) s1 in
      if clear_chat_history w
      then (Raise RerunException, set_chat_history [] s2)
      else (Ret tt, s2)
  | (Raise e, s1) => (Raise e, s1)
  end.
Proof.
  unfold sidebar. rewrite bind_eq.
  destruct (process_documents_button E w s) as [[[]|e] s1]; [|done].
  unfold status_message, st_success, st_info, st_rerun. monad_unfold.
  by destruct (documents_loaded s1), (clear_chat_history w).
Qed.

Lemma main_cases w s :
  main E w s =
  match sidebar E w s with
  | (Ret _, s1) =>
      if documents_loaded s1 then ask_question E w s1
      else (Ret tt,
            set_screen (screen s1 ++ [Info "Process documents first to enable querying"]) s1)
  | (Raise e, s1) => (Raise e, s1)
  end.
Proof.
  unfold main. rewrite bind_eq.
  destruct (sidebar E w s) as [[[]|e] s1]; [|done].
  rewrite bind_eq. unfold get. cbv iota beta.
  by destruct (documents_loaded s1).
Qed.

(** What the [Ask] handler adds to the log: nothing, the user turn, or the
    user turn and the assistant's. *)
Lemma ask_question_history w s :
  ∃ added,
    chat_history (ask_question E w s).2 = chat_history s ++ added ∧
    (length added ≤ 2)%nat ∧
    Forall (λ turn, turn.1 = "user" ∨ turn.1 = "assistant") added.
Proof.
  destruct (ask w) eqn:Ha;
    [|exists []; unfold ask_question; rewrite Ha; simpl;
      by rewrite app_nil_r; repeat split; auto].
  destruct (truthy (query_input w)) eqn:Hq;
    [|exists []; unfold ask_question; rewrite Ha, Hq; simpl;
      by rewrite app_nil_r; repeat split; auto].
  destruct (vector_store s) as [vs|] eqn:Hvs.
  2:{ exists []. unfold ask_question. rewrite Ha, Hq. simpl. rewrite bind_eq.
      unfold get. cbv iota beta. rewrite Hvs. simpl.
      by rewrite app_nil_r; repeat split; auto. }
  rewrite (ask_question_eq E w s vs Ha Hq Hvs).
  destruct (get_rag_response_ret E (query_input w) vs
              (set_chat_history (chat_history s ++ [("user", query_input w)]) s))
    as ([[r|] docs] & s1 & -> & (_&Hc&_) & _); fields.
  - destruct (truthy r); fields.
    + exists [("user", query_input w); ("assistant", r)].
      rewrite Hc, <- app_assoc. repeat split; auto.
    + exists [("user", query_input w)]. rewrite Hc. repeat split; auto.
  - exists [("user", query_input w)]. rewrite Hc. repeat split; auto.
Qed.

(** One run keeps the flag and the store together. *)
Lemma main_keeps_invariant w s :
  session_invariant s → session_invariant (main E w s).2.
Proof.
  unfold session_invariant. intros Hinv.
  destruct (main_session E w s) as [[[Hv Hd]|(vs & s1 & _ & Hv & Hd & _)] _].
  - by rewrite Hv, Hd.
  - rewrite Hv, Hd. split; eauto.
Qed.

End RunMore.

(** X9. [Clear Chat History] wins over everything below it.  When the
    button is pressed and the processing above it returned, the run ends in
    a rerun right there: the log is empty, the status line is the last thing
    shown, and the question section is never reached, so a question typed
    and asked in the same run is neither logged nor sent. *)
Theorem clear_chat_history_wins (E : Env) (w : Widgets) (s s1 : State) :
  clear_chat_history w = true →
  process_documents_button E w s = (Ret tt, s1) →
  main E w s
  = (Raise RerunException,
     set_chat_history [] (set_screen (screen s1 ++ [status_message s1]) s1))
  ∧ calls (main E w s).2 = calls s1.
Proof.
  intros Hc Hb. rewrite main_cases, sidebar_cases, Hb. cbv zeta. rewrite Hc.
  by split.
Qed.

Lemma clear_chat_history_wins_witness :
  main Demo.env
    {| uploaded_files := []; process_documents := false; clear_chat_history := true;
       query_input := "What color is the sky?"; ask := true |}
    (set_chat_history [("user", "hello")] Demo.ready)
  = (Raise RerunException,
     set_chat_history []
       (set_screen
          (screen (set_chat_history [("user", "hello")] Demo.ready)
           ++ [status_message (set_chat_history [("user", "hello")] Demo.ready)])
          (set_chat_history [("user", "hello")] Demo.ready)))
  ∧ calls (main Demo.env
             {| uploaded_files := []; process_documents := false;
                clear_chat_history := true;
                query_input := "What color is the sky?"; ask := true |}
             (set_chat_history [("user", "hello")] Demo.ready)).2
    = calls (set_chat_history [("user", "hello")] Demo.ready).
Proof.
  apply (clear_chat_history_wins Demo.env); reflexivity.
Defined.

(** X10. No question before ingestion.  In a session without documents,
    a run that does not process any leaves the session, the disk and the
    service alone, whatever is typed or asked: it shows the two hints and
    returns. *)
Theorem no_question_before_ingestion (E : Env) (w : Widgets) (s : State) :
  documents_loaded s = false →
  uploaded_files w = [] ∨ process_documents w = false →
  clear_chat_history w = false →
  main E w s
  = (Ret tt,
     set_screen
       (screen s ++
        [Info "📤 Upload and process PDF documents to start asking questions";
         Info "Process documents first to enable querying"]) s).
Proof.
  intros Hd Hidle Hc.
  rewrite main_cases, sidebar_cases, (process_documents_button_idle E w s Hidle).
  cbv zeta. rewrite Hc. unfold status_message. rewrite Hd. fields. rewrite Hd.
  f_equal. state_eq. by rewrite <- app_assoc.
Qed.

Lemma no_question_before_ingestion_witness :
  main Demo.env (Demo.click_ask "What color is the sky?") Demo.initial
  = (Ret tt,
     set_screen
       (screen Demo.initial ++
        [Info "📤 Upload and process PDF documents to start asking questions";
         Info "Process documents first to enable querying"]) Demo.initial).
Proof.
  apply (no_question_before_ingestion Demo.env
           (Demo.click_ask "What color is the sky?") Demo.initial);
    [reflexivity | left; reflexivity | reflexivity].
Defined.

(** X11. The flag and the store stay together.  Starting from a session in
    which [documents_loaded] is set exactly when a store is held (as in a
    new session, which has neither), every sequence of runs, in whatever
    worlds and with whatever widgets, ends in such a session. *)
Theorem session_invariant_kept (runs : list (Env * Widgets)) (s : State) :
  session_invariant s → session_invariant (reruns runs s).
Proof.
  revert s. induction runs as [|[E w] rest IH]; intros s Hinv; [exact Hinv|].
  simpl. apply IH. by apply main_keeps_invariant.
Qed.

Lemma session_invariant_kept_witness :
  session_invariant
    (reruns [(Demo.env_upsert_fails, Demo.click_process [Demo.sky_pdf]);
             (Demo.env, Demo.click_process [Demo.broken_pdf; Demo.sky_pdf]);
             (Demo.env_llm_down, Demo.click_ask "What color is the sky?")]
       Demo.initial).
Proof.
  apply (session_invariant_kept _ Demo.initial).
  split; [discriminate | by intros [? [=]]].
Defined.

(** X12. With the question box on screen, [Ask] always runs the query.  In
    a session where the flag and the store go together and documents are
    loaded, pressing [Ask] with a question finds a store, sends exactly one
    search, with limit 3, to that store's collection, and shows either
    nothing or one query error: the "process documents first" branch is
    never taken. *)
Theorem ask_runs_the_query (E : Env) (w : Widgets) (s : State) :
  session_invariant s →
  documents_loaded s = true →
  ask w = true →
  truthy (query_input w) = true →
  ∃ vs,
    vector_store s = Some vs ∧
    calls (ask_question E w s).2 = calls s ++ [Search (collection_name vs) 3] ∧
    (screen (ask_question E w s).2 = screen s ∨
     ∃ msg, screen (ask_question E w s).2
            = screen s ++ [Error ("Error generating response: " +:+ msg)]).
Proof.
  intros Hinv Hd Ha Hq.
  destruct (proj1 Hinv Hd) as [vs Hvs]. exists vs. split; [exact Hvs|].
  rewrite (ask_question_eq E w s vs Ha Hq Hvs), get_rag_response_eq, rag_chain_call_eq.
  cbv zeta. fields.
  destruct (qdrant s !! collection_name vs) as [c|]; fields;
    [|split; [done|right; by eexists]].
  destruct (nearest E (points c) (query_input w) 3) as [msg|docs]; fields;
    [split; [done|right; by eexists]|].
  destruct (generate E _ (query_input w) docs) as [msg|answer]; fields;
    [split; [done|right; by eexists]|].
  cbn [result]. destruct (truthy answer); fields; split; auto.
Qed.

Lemma ask_runs_the_query_witness :
  ∃ vs,
    vector_store Demo.ready = Some vs ∧
    calls (ask_question Demo.env_llm_down (Demo.click_ask "What color is the sky?")
             Demo.ready).2
    = calls Demo.ready ++ [Search (collection_name vs) 3] ∧
    (screen (ask_question Demo.env_llm_down (Demo.click_ask "What color is the sky?")
               Demo.ready).2 = screen Demo.ready ∨
     ∃ msg, screen (ask_question Demo.env_llm_down
                      (Demo.click_ask "What color is the sky?") Demo.ready).2
            = screen Demo.ready ++ [Error ("Error generating response: " +:+ msg)]).
Proof.
  apply (ask_runs_the_query Demo.env_llm_down (Demo.click_ask "What color is the sky?")
           Demo.ready); try reflexivity.
  vm_compute. split; [eauto | reflexivity].
Defined.

(** X13. The conversation log only grows unless it is cleared.  In a run
    where [Clear Chat History] is not pressed, the log afterwards is the log
    before followed by at most two new turns, each a user or an assistant
    turn; this holds however the run ends. *)
Theorem chat_history_append_only (E : Env) (w : Widgets) (s : State) :
  clear_chat_history w = false →
  ∃ added,
    chat_history (main E w s).2 = chat_history s ++ added ∧
    (length added ≤ 2)%nat ∧
    Forall (λ turn, turn.1 = "user" ∨ turn.1 = "assistant") added.
Proof.
  intros Hc. rewrite main_cases, sidebar_cases. cbv zeta. rewrite Hc.
  pose proof (process_documents_button_chat E w s) as Hb.
  destruct (process_documents_button E w s) as [[[]|e] s1]; fields.
  2:{ exists []. rewrite app_nil_r. repeat split; auto. }
  destruct (documents_loaded s1).
  - destruct (ask_question_history E w
                (set_screen (screen s1 ++ [status_message s1]) s1))
      as (added & Hh & Hl & Hr).
    exists added. fields. rewrite Hh, Hb. auto.
  - exists []. fields. rewrite app_nil_r. repeat split; auto.
Qed.

Lemma chat_history_append_only_witness :
  ∃ added,
    chat_history (main Demo.env (Demo.click_ask "What color is the sky?") Demo.ready).2
    = chat_history Demo.ready ++ added ∧
    (length added ≤ 2)%nat ∧
    Forall (λ turn, turn.1 = "user" ∨ turn.1 = "assistant") added.
Proof.
  apply (chat_history_append_only Demo.env (Demo.click_ask "What color is the sky?")
           Demo.ready).
  reflexivity.
Defined.

(** X14. A successful [Process Documents] installs the new store.  Whatever
    the session held before, if the button is pressed and ingestion returns
    a store, then after the run the session holds that store and
    [documents_loaded] is set. *)
Theorem successful_upload_supersedes
    (E : Env) (w : Widgets) (s s1 : State) (vs : Qdrant) :
  process_documents w = true →
  process_uploaded_files E (uploaded_files w) s = (Ret (Some vs), s1) →
  vector_store (main E w s).2 = Some vs ∧ documents_loaded (main E w s).2 = true.
Proof.
  intros Hp H.
  destruct (main_after_sidebar E w s) as (Hv & Hd & _).
  destruct (sidebar_eq E w s) as (Hv' & Hd' & _).
  rewrite Hv, Hd, Hv', Hd', (process_documents_button_some E w s vs s1 Hp H).
  by split.
Qed.

Lemma successful_upload_supersedes_witness :
  vector_store (main Demo.env (Demo.click_process [Demo.grass_pdf])
                  (set_clock (4005 # 4) Demo.ready)).2
    = Some {| collection_name := "RAG_PDF_1001";
              embedding := {| model_name := minilm |};
              store_url := None; store_api_key := None |}
  ∧ documents_loaded (main Demo.env (Demo.click_process [Demo.grass_pdf])
                        (set_clock (4005 # 4) Demo.ready)).2 = true.
Proof.
  eapply (successful_upload_supersedes Demo.env (Demo.click_process [Demo.grass_pdf])
            (set_clock (4005 # 4) Demo.ready)).
  - reflexivity.
  - vm_compute. reflexivity.
Defined.

(** ** Further properties of ingestion as a whole *)

(** X15. Ingestion succeeds when nothing fails.  If every upload can be
    read and staged, at least one page is extracted, both components come
    up, and the service accepts the deletion, the creation and the points
    for the generated name, then [process_uploaded_files] returns a store
    with that name, whatever collections existed before. *)
Theorem ingest_succeeds_when_nothing_fails
    (E : Env) (files : list UploadedFile) (s : State) :
  (∀ f, f ∈ files → read_fault E f = None) →
  (∀ p b, write_fault E p b = None) →
  text_units E files ≠ [] →
  embeddings_fault E "sentence-transformers/all-MiniLM-L6-v2" = None →
  client_fault E (environ s !! "QDRANT_URL") (environ s !! "QDRANT_API_KEY") = None →
  delete_fault E (fresh_collection_name (clock s)) = None →
  create_fault E (fresh_collection_name (clock s)) = None →
  (∀ docs, upsert_fault E (fresh_collection_name (clock s)) docs = None) →
  ∃ vs s',
    process_uploaded_files E files s = (Ret (Some vs), s') ∧
    collection_name vs = fresh_collection_name (clock s) ∧
    fresh_collection_name (clock s) ∈ dom (qdrant s').
Proof.
  intros Hr Hw Htext Hem Hcl Hdel Hcr Hup.
  destruct files as [|f rest]; [done|].
  destruct (load_all_returns E (f :: rest) Hr Hw [] s) as (text & s1 & Hl).
  pose proof (load_all_ret E _ _ _ _ _ Hl) as [Ht (_&_&_&_&Henv&Hclock&_)].
  rewrite process_uploaded_files_eq, Hl.
  destruct text as [|d text]; [by simpl in Ht|].
  rewrite initialize_components_eq. fold minilm in Hem. rewrite Hem, Henv, Hcl.
  rewrite create_vector_store_eq. cbv zeta.
  rewrite Hclock, Hcr, Hdel, lookup_delete_eq, Hup.
  eexists _, _. split; [reflexivity|]. fields. split; [reflexivity|].
  apply elem_of_dom. rewrite lookup_insert_eq. by eexists.
Qed.

Lemma ingest_succeeds_when_nothing_fails_witness :
  ∃ vs s',
    process_uploaded_files Demo.env [Demo.sky_pdf] Demo.ready = (Ret (Some vs), s') ∧
    collection_name vs = fresh_collection_name (clock Demo.ready) ∧
    fresh_collection_name (clock Demo.ready) ∈ dom (qdrant s').
Proof.
  apply (ingest_succeeds_when_nothing_fails Demo.env [Demo.sky_pdf] Demo.ready);
    try reflexivity.
  by vm_compute.
Defined.

(** X16. An ingestion that stops before the store is built has sent
    nothing.  If the loop ends with no text, or initialisation yields no
    components, [process_uploaded_files] returns [None] without a single
    request to Qdrant, and every collection is as it was. *)
Theorem failed_before_store_sends_nothing
    (E : Env) (files : list UploadedFile) (text : list Document) (s s1 : State) :
  load_all E files [] s = (Ret text, s1) →
  text = [] ∨ (initialize_components E s1).1 = Ret (None, None) →
  (process_uploaded_files E files s).1 = Ret None
  ∧ calls (process_uploaded_files E files s).2 = calls s
  ∧ qdrant (process_uploaded_files E files s).2 = qdrant s.
Proof.
  intros Hl Hwhy. destruct files as [|f rest]; [done|].
  pose proof (load_all_ret E _ _ _ _ _ Hl) as [_ (_&_&_&Hq&_&_&Hc)].
  rewrite process_uploaded_files_eq, Hl.
  destruct text as [|d text]; [by repeat split|].
  destruct Hwhy as [?|Hinit]; [done|].
  destruct (initialize_components_frame E s1)
    as (r & s2 & Hi & (_&_&_&Hq2&_&_&Hc2) & _ & _).
  rewrite Hi in Hinit |- *. simpl in Hinit. injection Hinit as ->.
  fields. repeat split; congruence.
Qed.

Lemma failed_before_store_sends_nothing_witness :
  (process_uploaded_files Demo.env_embeddings_down [Demo.sky_pdf] Demo.ready).1 = Ret None
  ∧ calls (process_uploaded_files Demo.env_embeddings_down [Demo.sky_pdf] Demo.ready).2
    = calls Demo.ready
  ∧ qdrant (process_uploaded_files Demo.env_embeddings_down [Demo.sky_pdf] Demo.ready).2
    = qdrant Demo.ready.
Proof.
  eapply (failed_before_store_sends_nothing Demo.env_embeddings_down [Demo.sky_pdf]).
  - vm_compute. reflexivity.
  - right. vm_compute. reflexivity.
Defined.


(** X18. The count announced is the count stored.  When
    [process_uploaded_files] returns a store, the last message it has shown
    is the success line, and the number of document chunks it names is the
    number of entries in the store's collection. *)
Theorem announced_count_is_index_size
    (E : Env) (files : list UploadedFile) (s s' : State) (vs : Qdrant) :
  process_uploaded_files E files s = (Ret (Some vs), s') →
  ∃ c,
    qdrant s' !! collection_name vs = Some c ∧
    last (screen s')
    = Some (Success ("✅ Successfully created vector store with "
                     +:+ pretty (length (points c)) +:+ " document chunks")).
Proof.
  destruct files as [|f rest]; [discriminate|].
  rewrite process_uploaded_files_eq.
  destruct (load_all E (f :: rest) [] s) as [[[|d text]|e] s1]; try discriminate.
  destruct (initialize_components_frame E s1) as (r & s2 & -> & _ & _ & Hr).
  destruct Hr as [->|(em & qc & -> & ->)]; [discriminate|].
  rewrite create_vector_store_eq. cbv zeta.
  destruct (create_fault E _); [discriminate|].
  destruct (_ !! fresh_collection_name (clock s1)); [discriminate|].
  destruct (upsert_fault E _ (d :: text)); [discriminate|].
  intros [= <- <-]. fields. cbn [collection_name].
  eexists. split; [apply lookup_insert_eq|].
  by rewrite last_snoc.
Qed.

Lemma announced_count_is_index_size_witness :
  ∃ c,
    qdrant (process_uploaded_files Demo.env [Demo.broken_pdf; Demo.sky_pdf] Demo.initial).2
      !! "RAG_PDF_1000" = Some c ∧
    last (screen (process_uploaded_files Demo.env [Demo.broken_pdf; Demo.sky_pdf]
                    Demo.initial).2)
    = Some (Success ("✅ Successfully created vector store with "
                     +:+ pretty (length (points c)) +:+ " document chunks")).
Proof.
  eapply (announced_count_is_index_size Demo.env [Demo.broken_pdf; Demo.sky_pdf]
            Demo.initial _ Demo.sky_store).
  vm_compute. reflexivity.
Defined.
